(** * vtfs: a shallow embedding of [vtfs.c] and its verified properties

    The kernel module keeps its whole name space in kmalloc'ed records that
    point at each other: a [vtfs_file] per directory entry, a [vtfs_dir] per
    directory, the VFS [inode] whose [i_private] points at one of the two, and
    the [char] array holding a file's bytes.  The embedding keeps exactly that
    shape: a heap of tagged objects addressed by locations, pointers as
    [option loc] ([None] is [NULL]), and every operation as a function on the
    heap that follows the C text statement by statement.

    Accessing a location that holds no object of the expected type (a freed
    block, or an [i_private] of the other kind) has no defined behaviour in
    C; the embedding stops there with the outcome [Fault]. *)

From Stdlib Require Import ZArith Lia List.
From Stdlib Require Import Init.Byte.
From stdpp Require Import base option list gmap strings.

#[local] Open Scope Z_scope.

(** ** Machine integers *)

Module Mach.

(** [size_t], [unsigned long], [ino_t]: 64-bit unsigned. *)
Definition wrap64 (z : Z) : Z := z mod 2 ^ 64.

(** [loff_t]: 64-bit signed. *)
Definition sint64 (z : Z) : Z := (z + 2 ^ 63) mod 2 ^ 64 - 2 ^ 63.

(** [unsigned int]. *)
Definition wrap32 (z : Z) : Z := z mod 2 ^ 32.

(** [int]. *)
Definition sint32 (z : Z) : Z := (z + 2 ^ 31) mod 2 ^ 32 - 2 ^ 31.

(** [<linux/stat.h>]: the file-type bits of a [umode_t]. *)
Definition S_IFMT : Z := 61440.   (* 0170000 *)
Definition S_IFDIR : Z := 16384.  (* 0040000 *)
Definition S_IFREG : Z := 32768.  (* 0100000 *)
Definition S_ISDIR (m : Z) : bool := Z.land m S_IFMT =? S_IFDIR.

End Mach.
Import Mach.

(** ** Data model *)

Abbreviation loc := positive.

(** [errno] values returned (negated) by the operations. *)
Inductive errno := EPERM | ENOENT | ENOMEM | EFAULT | EEXIST | EINVAL | ENOTEMPTY.

(** Which [file_operations] table an inode carries. *)
Inductive fops := vtfs_dir_ops | vtfs_file_ops.

(** [struct vtfs_file].  The embedded [list] node is represented by the
    record's membership in a directory's [children]. *)
Record vtfs_file := mk_file {
  name : option string;   (* char* from kstrdup, NULL when it failed *)
  ino : Z;
  mode : Z;
  inode : option loc;
  size : Z;
  data : option loc
}.

(** [struct vtfs_dir]: the list headed by [children], first element first. *)
Record vtfs_dir := mk_dir {
  children : list loc;
  self : option loc
}.

(** The fields of [struct inode] the module reads or writes. *)
Record inode_t := mk_inode {
  i_ino : Z;
  i_mode : Z;
  i_nlink : Z;
  i_private : option loc;
  i_fop : option fops
}.

Inductive obj :=
| OFile (f : vtfs_file)
| ODir (d : vtfs_dir)
| OInode (i : inode_t)
| OBuf (bytes : list byte).

(** Kernel memory as the module sees it.  [next_loc] is the next address the
    allocator hands out (addresses are never reused, so a freed address stays
    dangling); [last_ino] is the counter behind [get_next_ino]. *)
Record state := mk_state {
  heap : gmap loc obj;
  next_loc : loc;
  last_ino : Z
}.

Definition set_heap (h : gmap loc obj) (st : state) : state :=
  mk_state h (next_loc st) (last_ino st).

(** [struct dentry]: the name looked up and the inode bound to it. *)
Record dentry := mk_dentry {
  d_name : string;
  d_inode : option loc
}.

(** ** Outcomes and the state monad of the operations *)

Inductive outcome (A : Type) :=
| Ok (a : A)
| Error (e : errno)
| Fault.
Arguments Ok {A} a.
Arguments Error {A} e.
Arguments Fault {A}.

Definition M (A : Type) : Type := state -> outcome A * state.

Definition ret {A} (a : A) : M A := fun st => (Ok a, st).
Definition fail {A} (e : errno) : M A := fun st => (Error e, st).
Definition fault {A} : M A := fun st => (Fault, st).

Definition bind {A B} (m : M A) (f : A -> M B) : M B :=
  fun st =>
    match m st with
    | (Ok a, st') => f a st'
    | (Error e, st') => (Error e, st')
    | (Fault, st') => (Fault, st')
    end.

Declare Scope vtfs_scope.
Delimit Scope vtfs_scope with vtfs.
Notation "'let*' x ':=' m 'in' k" := (bind m (fun x => k))
  (at level 10, x pattern, m at level 100, k at level 200) : vtfs_scope.
Notation "m ';;' k" := (bind m (fun _ => k))
  (at level 100, k at level 200, right associativity) : vtfs_scope.
#[local] Open Scope vtfs_scope.

(** ** Memory primitives *)

Definition get_inode (st : state) (l : loc) : option inode_t :=
  match heap st !! l with Some (OInode i) => Some i | _ => None end.

Definition get_file (st : state) (l : loc) : option vtfs_file :=
  match heap st !! l with Some (OFile f) => Some f | _ => None end.

Definition get_dir (st : state) (l : loc) : option vtfs_dir :=
  match heap st !! l with Some (ODir d) => Some d | _ => None end.

Definition get_buf (st : state) (l : loc) : option (list byte) :=
  match heap st !! l with Some (OBuf b) => Some b | _ => None end.

Definition load {A} (get : state -> loc -> option A) (l : loc) : M A :=
  fun st => match get st l with Some a => (Ok a, st) | None => (Fault, st) end.

Definition store (l : loc) (o : obj) : M unit :=
  fun st => (Ok tt, set_heap (<[l := o]> (heap st)) st).

(** A successful [kmalloc]/[kzalloc]/[new_inode]: a fresh address holding [o]. *)
Definition alloc (o : obj) : M loc :=
  fun st =>
    let l := next_loc st in
    (Ok l, mk_state (<[l := o]> (heap st)) (Pos.succ l) (last_ino st)).

(** [kfree(p)]: nothing for [NULL]; freeing an address that holds no live
    block (a second free) is undefined. *)
Definition kfree (p : option loc) : M unit :=
  fun st =>
    match p with
    | None => (Ok tt, st)
    | Some l =>
        match heap st !! l with
        | Some _ => (Ok tt, set_heap (delete l (heap st)) st)
        | None => (Fault, st)
        end
    end.

(** Reading [n] bytes at offset [off] of a block; no access when [n = 0]. *)
Definition read_bytes (b : list byte) (off n : Z) : option (list byte) :=
  if n =? 0 then Some []
  else if (0 <=? off) && (off + n <=? Z.of_nat (length b))
       then Some (take (Z.to_nat n) (drop (Z.to_nat off) b))
       else None.

(** Writing [new] at offset [off] of a block; no access when [new] is empty. *)
Definition write_bytes (b : list byte) (off : Z) (new : list byte) : option (list byte) :=
  match new with
  | [] => Some b
  | _ =>
      if (0 <=? off) && (off + Z.of_nat (length new) <=? Z.of_nat (length b))
      then Some (take (Z.to_nat off) b ++ new
                   ++ drop (Z.to_nat off + length new) b)
      else None
  end.

(** What [krealloc] may do: fail, or return a block of the requested size
    that is either the old address or a fresh one.  The old bytes are kept;
    the bytes past them are whatever the allocator left there ([junk]). *)
Inductive krealloc_choice :=
| KFail
| KOk (moved : bool) (junk : nat -> byte).

Definition grown (old : list byte) (new_size : Z) (junk : nat -> byte) : list byte :=
  take (Z.to_nat new_size) old
    ++ map junk (seq (length old) (Z.to_nat new_size - length old)).

Definition krealloc (p : option loc) (new_size : Z) (c : krealloc_choice) : M (option loc) :=
  match c with
  | KFail => ret None
  | KOk moved junk =>
      match p with
      | None =>
          let* l := alloc (OBuf (grown [] new_size junk)) in ret (Some l)
      | Some l =>
          let* old := load get_buf l in
          if moved then
            kfree (Some l);;
            let* l' := alloc (OBuf (grown old new_size junk)) in ret (Some l')
          else
            store l (OBuf (grown old new_size junk));; ret (Some l)
      end
  end.

(** [memset(p + off, 0, n)] on the block at [p]. *)
Definition memset0 (p : loc) (off n : Z) : M unit :=
  let* b := load get_buf p in
  match write_bytes b off (repeat x00 (Z.to_nat n)) with
  | Some b' => store p (OBuf b')
  | None => fault
  end.

(** ** File content: [vtfs_read] and [vtfs_write]

    [file_inode(file)] is passed as the inode's address; [*ppos] is passed in
    and its final value returned next to the outcome.  [uok] says whether
    [copy_to_user] can write the caller's buffer. *)

Definition vtfs_read (uok : bool) (file_inode : loc) (len ppos : Z) (st : state)
  : outcome (list byte) * Z * state :=
  match get_inode st file_inode with
  | None => (Fault, ppos, st)
  | Some i =>
      match i_private i with
      | None => (Ok [], ppos, st)                       (* !file_data *)
      | Some fl =>
          match get_file st fl with
          | None => (Fault, ppos, st)
          | Some file_data =>
              match data file_data with
              | None => (Ok [], ppos, st)               (* !file_data->data *)
              | Some dl =>
                  let available := wrap64 (size file_data - ppos) in
                  if available <=? 0 then (Ok [], ppos, st)
                  else
                    let to_copy := Z.min len available in
                    match get_buf st dl with
                    | None => (Fault, ppos, st)
                    | Some b =>
                        match read_bytes b ppos to_copy with
                        | None => (Fault, ppos, st)
                        | Some out =>
                            if uok
                            then (Ok out, sint64 (wrap64 (ppos + to_copy)), st)
                            else (Error EFAULT, ppos, st)
                        end
                    end
              end
          end
      end
  end.

(** [ubuf] is the readable part of the caller's buffer, at most [len] bytes:
    [copy_from_user] copies it and, when it is shorter than [len], pads the
    destination with zero bytes and reports the shortfall. *)
Definition copy_from_user (dst : option loc) (off : Z) (ubuf : list byte) (len : Z)
  : M Z :=
  let n := Z.min len (Z.of_nat (length ubuf)) in
  let src := take (Z.to_nat n) ubuf ++ repeat x00 (Z.to_nat (len - n)) in
  match src with
  | [] => ret 0
  | _ =>
      match dst with
      | None => fault
      | Some dl =>
          let* b := load get_buf dl in
          match write_bytes b off src with
          | Some b' => store dl (OBuf b');; ret (len - n)
          | None => fault
          end
      end
  end.

Definition set_content (f : vtfs_file) (d : option loc) (sz : Z) : vtfs_file :=
  mk_file (name f) (ino f) (mode f) (inode f) sz d.

Definition vtfs_write (kc : krealloc_choice) (ubuf : list byte)
    (f_inode : loc) (len ppos : Z) (st : state) : outcome Z * Z * state :=
  match get_inode st f_inode with
  | None => (Fault, ppos, st)
  | Some i =>
      match i_private i with
      | None => (Error EINVAL, ppos, st)
      | Some fl =>
          let body : M Z :=
            let* file_data := load get_file fl in
            let new_size := Z.max (wrap64 (ppos + len)) (size file_data) in
            let* file_data :=
              if size file_data <? new_size then
                let* new_data := krealloc (data file_data) new_size kc in
                match new_data with
                | None => fail ENOMEM
                | Some nd =>
                    memset0 nd (size file_data) (new_size - size file_data);;
                    memset0 nd (size file_data) (new_size - size file_data);;
                    let file_data' := set_content file_data (Some nd) new_size in
                    store fl (OFile file_data');;
                    ret file_data'
                end
              else ret file_data in
            let* uncopied := copy_from_user (data file_data) ppos ubuf len in
            if negb (uncopied =? 0) then fail EFAULT
            else ret len
          in
          match body st with
          | (Ok n, st') => (Ok n, sint64 (wrap64 (ppos + len)), st')
          | (Error e, st') => (Error e, ppos, st')
          | (Fault, st') => (Fault, ppos, st')
          end
      end
  end.

(** ** Kernel services used by the name-space operations *)

(** [get_next_ino()]: the next value of a 32-bit counter, never 0. *)
Definition get_next_ino : M Z :=
  fun st =>
    let res := wrap32 (last_ino st + 1) in
    let res := if res =? 0 then wrap32 (res + 1) else res in
    (Ok res, mk_state (heap st) (next_loc st) res).

(** Dereferencing a pointer that may be [NULL]. *)
Definition deref (p : option loc) : M loc :=
  match p with Some l => ret l | None => fault end.

Definition set_nlink (i : inode_t) (n : Z) : inode_t :=
  mk_inode (i_ino i) (i_mode i) n (i_private i) (i_fop i).

Definition inode_inc_link_count (p : option loc) : M unit :=
  let* l := deref p in
  let* i := load get_inode l in
  store l (OInode (set_nlink i (wrap32 (i_nlink i + 1)))).

Definition inode_dec_link_count (p : option loc) : M unit :=
  let* l := deref p in
  let* i := load get_inode l in
  store l (OInode (set_nlink i (wrap32 (i_nlink i - 1)))).

(** [list_del(&e->list)]: [e] leaves the list it is on. *)
Definition unlink_node (e : loc) (o : obj) : obj :=
  match o with
  | ODir d => ODir (mk_dir (filter (λ x, x ≠ e) (children d)) (self d))
  | _ => o
  end.

Definition list_del (e : loc) : M unit :=
  fun st => (Ok tt, set_heap (unlink_node e <$> heap st) st).

(** [list_add(&e->list, &dir->children)] puts [e] right after the head,
    [list_add_tail] right before it. *)
Definition list_add (e dir : loc) : M unit :=
  let* d := load get_dir dir in
  store dir (ODir (mk_dir (e :: children d) (self d))).

Definition list_add_tail (e dir : loc) : M unit :=
  let* d := load get_dir dir in
  store dir (ODir (mk_dir (children d ++ [e]) (self d))).

(** Which of the allocations of one call succeed: the [kmalloc]/[kzalloc] of
    the [vtfs_file], the [kstrdup] of its name, the [kzalloc] of the
    [vtfs_dir], and [new_inode]. *)
Record allocs := mk_allocs {
  file_ok : bool;
  name_ok : bool;
  dir_ok : bool;
  inode_ok : bool
}.

Definition all_ok : allocs := mk_allocs true true true true.

Definition kstrdup (ok : bool) (s : string) : option string :=
  if ok then Some s else None.

(** [vtfs_get_inode(sb, dir, mode, i_ino)].  [new_inode] returns an inode
    with link count 1; [i_ino] arrives as an [int].  On a [NULL] inode the
    assignment of [i_ino] is a null dereference. *)
Definition vtfs_get_inode (ok : bool) (md : Z) (ino_arg : Z) : M loc :=
  if ok then
    alloc (OInode (mk_inode (wrap64 (sint32 ino_arg)) md 1 None None))
  else fault.

Definition set_private (l : loc) (p : loc) (f : fops) : M unit :=
  let* i := load get_inode l in
  store l (OInode (mk_inode (i_ino i) (i_mode i) (i_nlink i) (Some p) (Some f))).

(** The loop shared by create, link, lookup and unlink: the first entry of
    the list whose name compares equal ([strcmp(...) == 0]). *)
Fixpoint find_entry (st : state) (nm : string) (l : list loc)
  : outcome (option (loc * vtfs_file)) :=
  match l with
  | [] => Ok None
  | e :: rest =>
      match get_file st e with
      | None => Fault
      | Some entry =>
          match name entry with
          | None => Fault
          | Some n =>
              if String.eqb n nm then Ok (Some (e, entry))
              else find_entry st nm rest
          end
      end
  end.

Definition scan (nm : string) (l : list loc) : M (option (loc * vtfs_file)) :=
  fun st => (find_entry st nm l, st).

(** ** Name-space operations

    An operation that returns 0 after [d_add(dentry, inode)] yields the dentry
    with that inode bound.  The [idmap], [excl] and [flag] arguments are not
    used by the source and are left out.  Names are values here, so
    [kfree(entry->name)] has no counterpart. *)

(** [vtfs_create].  The new [vtfs_file] is allocated once its inode number is
    drawn; its [inode] field is filled in when [vtfs_get_inode] has returned,
    as in the source. *)

Definition vtfs_create (o : allocs) (parent_inode : loc) (child_dentry : dentry)
    (md : Z) : M dentry :=
  if S_ISDIR md then fail EPERM
  else
    let* pi := load get_inode parent_inode in
    let* pdl := deref (i_private pi) in
    let* parent_dir := load get_dir pdl in
    let* hit := scan (d_name child_dentry) (children parent_dir) in
    match hit with
    | Some _ => fail EEXIST
    | None =>
        if negb (file_ok o) then fail ENOMEM
        else
          let* nino := get_next_ino in
          let nf := mk_file (kstrdup (name_ok o) (d_name child_dentry))
                            nino md None 0 None in
          let* new_file := alloc (OFile nf) in
          let* il := vtfs_get_inode (inode_ok o) md nino in
          store new_file (OFile (mk_file (name nf) nino md (Some il) 0 None));;
          set_private il new_file vtfs_file_ops;;
          list_add new_file pdl;;
          ret (mk_dentry (d_name child_dentry) (Some il))
    end.

(** [vtfs_unlink].  The loop stops at the first entry of that name; the
    entry's [data] and the entry itself are freed before the link count of
    [child_dentry->d_inode] is decremented. *)
Definition vtfs_unlink (parent_inode : option loc) (child_dentry : option dentry)
  : M unit :=
  match parent_inode, child_dentry with
  | Some pil, Some cd =>
      let* pi := load get_inode pil in
      match i_private pi with
      | None => fail EFAULT
      | Some pdl =>
          let* parent_dir := load get_dir pdl in
          let* hit := scan (d_name cd) (children parent_dir) in
          match hit with
          | Some (e, file_entry) =>
              list_del e;;
              kfree (data file_entry);;
              kfree (Some e);;
              inode_dec_link_count (d_inode cd);;
              ret tt
          | None => fail ENOENT
          end
      end
  | _, _ => fail EINVAL
  end.

(** [vtfs_link].  The new entry comes from [kzalloc], so its [ino] and
    [mode] are 0; it copies [size] and the [data] pointer of the entry the
    inode points at. *)
Definition vtfs_link (o : allocs) (old_dentry : dentry) (parent_inode : loc)
    (new_dentry : dentry) : M dentry :=
  let* oil := deref (d_inode old_dentry) in
  let* oi := load get_inode oil in
  let* pi := load get_inode parent_inode in
  let* ofl := deref (i_private oi) in
  let* old_file := load get_file ofl in
  if S_ISDIR (mode old_file) then fail EPERM
  else
    let* pdl := deref (i_private pi) in
    let* parent_dir := load get_dir pdl in
    let* hit := scan (d_name new_dentry) (children parent_dir) in
    match hit with
    | Some _ => fail EEXIST
    | None =>
        if negb (file_ok o) then fail ENOMEM
        else
          let* new_file :=
            alloc (OFile (mk_file (kstrdup (name_ok o) (d_name new_dentry))
                                  0 0 (d_inode old_dentry)
                                  (size old_file) (data old_file))) in
          list_add_tail new_file pdl;;
          inode_inc_link_count (d_inode old_dentry);;
          ret (mk_dentry (d_name new_dentry) (d_inode old_dentry))
    end.

(** What [dir_emit] is handed for one entry: name, its length, inode number
    and type ([DT_DIR] = 4, [DT_REG] = 8). *)
Record dirent := mk_dirent {
  de_name : string;
  de_namelen : Z;
  de_ino : Z;
  de_type : Z
}.

Definition DT_DIR : Z := 4.
Definition DT_REG : Z := 8.

(** The loop of [vtfs_iterate].  [cap] is the number of entries [dir_emit]
    still accepts; the result carries the entries emitted and the final
    [ctx->pos]. *)
Fixpoint iterate_loop (st : state) (offset index : Z) (cap : nat) (pos : Z)
    (l : list loc) : outcome unit * list dirent * Z :=
  match l with
  | [] => (Ok tt, [], pos)
  | e :: rest =>
      if index <? offset then
        iterate_loop st offset (wrap64 (index + 1)) cap pos rest
      else
        match get_file st e with
        | None => (Fault, [], pos)
        | Some entry =>
            match name entry with
            | None => (Fault, [], pos)
            | Some n =>
                match cap with
                | O => (Error ENOMEM, [], pos)
                | S cap' =>
                    let de := mk_dirent n (Z.of_nat (String.length n)) (ino entry)
                                (if S_ISDIR (mode entry) then DT_DIR else DT_REG) in
                    let '(r, out, pos') :=
                      iterate_loop st offset (wrap64 (index + 1)) cap'
                        (sint64 (pos + 1)) rest in
                    (r, de :: out, pos')
                end
            end
        end
  end.

Definition vtfs_iterate (cap : nat) (f_inode : loc) (pos : Z) (st : state)
  : outcome unit * list dirent * Z :=
  match get_inode st f_inode with
  | None => (Fault, [], pos)
  | Some i =>
      match i_private i with
      | None => (Fault, [], pos)
      | Some dl =>
          match get_dir st dl with
          | None => (Fault, [], pos)
          | Some dir => iterate_loop st (wrap64 pos) 0 cap pos (children dir)
          end
      end
  end.

(** [vtfs_lookup]: the dentry is bound to the inode of the first entry of
    that name, and left as it was when there is none. *)
Definition vtfs_lookup (parent_inode : loc) (child_dentry : dentry) : M dentry :=
  let* pi := load get_inode parent_inode in
  let* pdl := deref (i_private pi) in
  let* parent_dir := load get_dir pdl in
  let* hit := scan (d_name child_dentry) (children parent_dir) in
  match hit with
  | Some (_, entry) => ret (mk_dentry (d_name child_dentry) (inode entry))
  | None => ret child_dentry
  end.

(** [vtfs_mkdir].  The parent's list is first touched by [list_add_tail]. *)
Definition vtfs_mkdir (o : allocs) (parent_inode : option loc)
    (child_dentry : option dentry) (md : Z) : M dentry :=
  match parent_inode, child_dentry with
  | Some pil, Some cd =>
      let* pi := load get_inode pil in
      match i_private pi with
      | None => fail EFAULT
      | Some pdl =>
          if negb (file_ok o) then fail ENOMEM
          else
            let* new_file := alloc (OFile (mk_file None 0 0 None 0 None)) in
            match kstrdup (name_ok o) (d_name cd) with
            | None => kfree (Some new_file);; fail ENOMEM
            | Some nm =>
                store new_file (OFile (mk_file (Some nm) 0 0 None 0 None));;
                if negb (dir_ok o) then kfree (Some new_file);; fail ENOMEM
                else
                  let* new_dir := alloc (ODir (mk_dir [] (Some new_file))) in
                  let* nino := get_next_ino in
                  let md' := Z.lor S_IFDIR md in
                  let* il := vtfs_get_inode (inode_ok o) md' nino in
                  store new_file
                    (OFile (mk_file (Some nm) nino md' (Some il) 0 None));;
                  set_private il new_dir vtfs_dir_ops;;
                  list_add_tail new_file pdl;;
                  ret (mk_dentry (d_name cd) (Some il))
            end
      end
  | _, _ => fail EINVAL
  end.

(** [vtfs_rmdir].  The target is reached through [child_dentry->d_inode]
    alone; [list_del_init] takes its entry off whatever list it is on. *)
Definition vtfs_rmdir (parent_inode : option loc) (child_dentry : option dentry)
  : M unit :=
  match parent_inode, child_dentry with
  | Some pil, Some cd =>
      let* pi := load get_inode pil in
      match i_private pi, d_inode cd with
      | Some _, Some til =>
          let* ti := load get_inode til in
          match i_private ti with
          | None => fail EFAULT
          | Some tdl =>
              let* target_dir := load get_dir tdl in
              match self target_dir with
              | None => fail EFAULT
              | Some tfl =>
                  match children target_dir with
                  | _ :: _ => fail ENOTEMPTY
                  | [] =>
                      let* _ := load get_file tfl in
                      list_del tfl;;
                      inode_dec_link_count (Some til);;
                      kfree (Some tfl);;
                      kfree (Some tdl);;
                      ret tt
                  end
              end
          end
      | _, _ => fail EFAULT
      end
  | _, _ => fail EINVAL
  end.

(** [vtfs_fill_super]: the root directory, inode number 100.  [root_ok] says
    whether [d_make_root] succeeds.  The result is the root inode. *)
Definition vtfs_fill_super (o : allocs) (root_ok : bool) : M loc :=
  if negb (dir_ok o) then fail ENOMEM
  else
    let* root_dir := alloc (ODir (mk_dir [] None)) in
    if negb (file_ok o) then kfree (Some root_dir);; fail ENOMEM
    else
      let md := Z.lor S_IFDIR 511 in
      let* root_file :=
        alloc (OFile (mk_file (kstrdup (name_ok o) "/") 100 md None 0 None)) in
      let* il := vtfs_get_inode (inode_ok o) md 100 in
      store root_file
        (OFile (mk_file (kstrdup (name_ok o) "/") 100 md (Some il) 0 None));;
      store root_dir (ODir (mk_dir [] (Some root_file)));;
      set_private il root_dir vtfs_dir_ops;;
      if negb root_ok then
        kfree (Some root_file);; kfree (Some root_dir);; fail ENOMEM
      else ret il.

Definition empty_state : state := mk_state ∅ 1%positive 0.

(** ** Well-formedness predicates used by the statements *)

(** The allocator has never handed out an address at or above [next_loc]. *)
Definition alloc_fresh (st : state) : Prop :=
  forall l, (next_loc st <= l)%positive -> heap st !! l = None.

(** The inode at [fi] is a regular file whose bytes are [c]: its
    [i_private] is a [vtfs_file] whose [size] is the length of [c] and whose
    [data] is [NULL] for an empty file and the block holding [c] otherwise. *)
Definition file_at (st : state) (fi : loc) (c : list byte) : Prop :=
  exists i fl fd,
    get_inode st fi = Some i /\ i_private i = Some fl /\
    get_file st fl = Some fd /\
    size fd = Z.of_nat (length c) /\ size fd < 2 ^ 63 /\
    match data fd with
    | None => c = []
    | Some dl => get_buf st dl = Some c
    end.

(** No block is as large as [2^63] bytes ([kmalloc] cannot return one). *)
Definition small_obj (o : obj) : bool :=
  match o with
  | OBuf b => Z.of_nat (length b) <? 2 ^ 63
  | _ => true
  end.

Definition buffers_bounded (st : state) : Prop :=
  map_Forall (λ _ o, small_obj o = true) (heap st).

(** The bytes of a file after [bytes] were written at offset [off]: the old
    bytes, zero bytes up to the end of the write where the file was shorter,
    and [bytes] laid over that. *)
Definition content_after_write (c : list byte) (off : Z) (bytes : list byte)
  : list byte :=
  let padded :=
    c ++ repeat x00 (Z.to_nat (off + Z.of_nat (length bytes)) - length c) in
  take (Z.to_nat off) padded ++ bytes
    ++ drop (Z.to_nat off + length bytes) padded.

(** The names of the entries of a directory, in list order. *)
Definition entry_names (st : state) (dir_inode : loc) : option (list (option string)) :=
  i ← get_inode st dir_inode;
  dl ← i_private i;
  d ← get_dir st dl;
  mapM (λ e, name <$> get_file st e) (children d).

(** The entries [dir_emit] is handed when a whole list is enumerated. *)
Definition dirent_of (entry : vtfs_file) : option dirent :=
  match name entry with
  | None => None
  | Some n =>
      Some (mk_dirent n (Z.of_nat (String.length n)) (ino entry)
              (if S_ISDIR (mode entry) then DT_DIR else DT_REG))
  end.

Fixpoint listing (st : state) (l : list loc) : option (list dirent) :=
  match l with
  | [] => Some []
  | e :: rest =>
      match get_file st e with
      | None => None
      | Some entry =>
          match dirent_of entry, listing st rest with
          | Some de, Some des => Some (de :: des)
          | _, _ => None
          end
      end
  end.

(** What [copy_from_user] leaves in the destination when [ubuf] is the
    readable part of the caller's buffer: the bytes it could read, then zero
    bytes up to [len]. *)
Definition user_image (ubuf : list byte) (len : Z) : list byte :=
  take (Z.to_nat len) ubuf ++ repeat x00 (Z.to_nat len - length ubuf).

(** The names of the entries on a list, when every entry is live and has a
    name. *)
Fixpoint names_of (st : state) (l : list loc) : option (list string) :=
  match l with
  | [] => Some []
  | e :: rest =>
      match get_file st e with
      | None => None
      | Some entry =>
          match name entry, names_of st rest with
          | Some n, Some ns => Some (n :: ns)
          | _, _ => None
          end
      end
  end.

(** The inode at [di] is a directory whose entries are named [ns], in list
    order: its [i_private] is a [vtfs_dir] with [self] set, and its list
    holds each entry once. *)
Definition dir_at (st : state) (di : loc) (ns : list string) : Prop :=
  exists i dl d,
    get_inode st di = Some i /\ i_private i = Some dl /\
    get_dir st dl = Some d /\ is_Some (self d) /\
    NoDup (children d) /\ names_of st (children d) = Some ns.

(** The inode at [fi] points at an entry whose mode is not a directory's. *)
Definition linkable (st : state) (fi : loc) : Prop :=
  exists i fl fd,
    get_inode st fi = Some i /\ i_private i = Some fl /\
    get_file st fl = Some fd /\ S_ISDIR (mode fd) = false.

(** ** Concrete runs

    The states below are reached from an empty kernel heap by the module's
    own operations with every allocation succeeding.  The addresses are the
    ones the allocator hands out in that order: the root [vtfs_dir] is 1, its
    [vtfs_file] 2, the root inode 3; the first entry made afterwards gets
    4 (and 5 for its inode, or its directory record). *)

Module Run.

Definition run {A} (m : M A) (st : state) : state := snd (m st).

Definition root : loc := 3%positive.
Definition reg : Z := Z.lor S_IFREG 420.   (* S_IFREG | 0644 *)

Definition neg (nm : string) : dentry := mk_dentry nm None.
Definition pos (nm : string) (l : loc) : dentry := mk_dentry nm (Some l).

Definition st_root : state := run (vtfs_fill_super all_ok true) empty_state.

(** A file [f] in the root: entry 4, inode 5. *)
Definition f_inode : loc := 5%positive.
Definition st_f : state := run (vtfs_create all_ok root (neg "f") reg) st_root.

(** [f] holds the bytes "AB" (block 6). *)
Definition write_AB (st : state) :=
  vtfs_write (KOk true (λ _, x00)) [x41; x42] f_inode 2 0 st.
Definition st_ab : state := snd (write_AB st_f).

(** A second name [g] for the inode of [f] (entry 7), then [f] unlinked. *)
Definition st_linked : state :=
  run (vtfs_link all_ok (pos "f" f_inode) root (neg "g")) st_ab.
Definition st_unlinked : state :=
  run (vtfs_unlink (Some root) (Some (pos "f" f_inode))) st_linked.

(** [mkdir f] in the root that already has the file [f]
    (entry 6, directory record 7, inode 8). *)
Definition st_dup : state :=
  run (vtfs_mkdir all_ok (Some root) (Some (neg "f")) 493) st_f.

(** A directory [d] in the root: entry 4, directory record 5, inode 6. *)
Definition d_inode : loc := 6%positive.
Definition st_d : state :=
  run (vtfs_mkdir all_ok (Some root) (Some (neg "d")) 493) st_root.

(** [create a], [create b], [mkdir c] in that order. *)
Definition st_a : state := run (vtfs_create all_ok root (neg "a") reg) st_root.
Definition st_a_b : state := run (vtfs_create all_ok root (neg "b") reg) st_a.
Definition st_a_b_c : state :=
  run (vtfs_mkdir all_ok (Some root) (Some (neg "c")) 493) st_a_b.

(** A file [x] inside the directory [d]. *)
Definition st_d_x : state := run (vtfs_create all_ok d_inode (neg "x") reg) st_d.

End Run.

(** * Verification *)

(** ** Arithmetic and memory lemmas *)

Lemma wrap64_small z : 0 <= z < 2 ^ 64 -> wrap64 z = z.
Proof. intros H. unfold wrap64. apply Z.mod_small. exact H. Qed.

Lemma wrap64_range z : 0 <= wrap64 z < 2 ^ 64.
Proof. unfold wrap64. apply Z.mod_pos_bound. lia. Qed.

Lemma sint64_small z : - 2 ^ 63 <= z < 2 ^ 63 -> sint64 z = z.
Proof.
  intros H. unfold sint64.
  rewrite Z.mod_small by lia. lia.
Qed.

Lemma get_inode_Some st l i :
  get_inode st l = Some i <-> heap st !! l = Some (OInode i).
Proof. unfold get_inode. destruct (heap st !! l) as [[]|]; split; congruence. Qed.

Lemma get_file_Some st l f :
  get_file st l = Some f <-> heap st !! l = Some (OFile f).
Proof. unfold get_file. destruct (heap st !! l) as [[]|]; split; congruence. Qed.

Lemma get_dir_Some st l d :
  get_dir st l = Some d <-> heap st !! l = Some (ODir d).
Proof. unfold get_dir. destruct (heap st !! l) as [[]|]; split; congruence. Qed.

Lemma get_buf_Some st l b :
  get_buf st l = Some b <-> heap st !! l = Some (OBuf b).
Proof. unfold get_buf. destruct (heap st !! l) as [[]|]; split; congruence. Qed.

Lemma load_ok {A} (get : state -> loc -> option A) l a st :
  get st l = Some a -> load get l st = (Ok a, st).
Proof. unfold load. intros ->. reflexivity. Qed.

Lemma alloc_fresh_iff st :
  alloc_fresh st <-> map_Forall (λ l _, (l < next_loc st)%positive) (heap st).
Proof.
  split.
  - intros H l o Hl. destruct (Pos.ltb_spec l (next_loc st)); [done|].
    rewrite H in Hl; done.
  - intros H l Hl. destruct (heap st !! l) eqn:E; [|done].
    apply H in E. lia.
Qed.

Lemma buffers_bounded_buf st l b :
  buffers_bounded st -> get_buf st l = Some b -> Z.of_nat (length b) < 2 ^ 63.
Proof.
  intros H Hb. apply get_buf_Some in Hb. apply H in Hb.
  simpl in Hb. apply Z.ltb_lt in Hb. exact Hb.
Qed.

Lemma read_bytes_length b off n out :
  0 <= n -> read_bytes b off n = Some out -> Z.of_nat (length out) = n.
Proof.
  unfold read_bytes. intros Hn.
  destruct (n =? 0) eqn:E0.
  - intros [= <-]. apply Z.eqb_eq in E0. simpl. lia.
  - destruct (_ && _) eqn:Eb; [|discriminate].
    intros [= <-]. apply andb_true_iff in Eb as [H1 H2].
    apply Z.leb_le in H1, H2.
    rewrite length_take, length_drop. lia.
Qed.

Lemma read_bytes_bound b off n out :
  n <> 0 -> read_bytes b off n = Some out ->
  0 <= off /\ off + n <= Z.of_nat (length b).
Proof.
  unfold read_bytes. intros Hn.
  destruct (n =? 0) eqn:E0; [apply Z.eqb_eq in E0; lia|].
  destruct (_ && _) eqn:Eb; [|discriminate].
  intros _. apply andb_true_iff in Eb as [H1 H2].
  apply Z.leb_le in H1, H2. lia.
Qed.

Lemma write_bytes_ok b off new :
  0 <= off -> off + Z.of_nat (length new) <= Z.of_nat (length b) ->
  write_bytes b off new
  = Some (take (Z.to_nat off) b ++ new ++ drop (Z.to_nat off + length new) b).
Proof.
  intros H0 H1. unfold write_bytes. destruct new as [|x new].
  - simpl. rewrite Nat.add_0_r, take_drop. reflexivity.
  - assert (((0 <=? off)
             && (off + Z.of_nat (length (x :: new)) <=? Z.of_nat (length b)))
            = true) as ->.
    { apply andb_true_iff. split; apply Z.leb_le; lia. }
    reflexivity.
Qed.

Lemma memset0_ok st p b off n :
  get_buf st p = Some b -> 0 <= off -> 0 <= n -> off + n <= Z.of_nat (length b) ->
  memset0 p off n st
  = (Ok tt,
     set_heap (<[p := OBuf (take (Z.to_nat off) b ++ repeat x00 (Z.to_nat n)
                              ++ drop (Z.to_nat (off + n)) b)]> (heap st)) st).
Proof.
  intros Hb H0 Hn Hlen. unfold memset0, bind. rewrite (load_ok _ _ _ _ Hb).
  rewrite write_bytes_ok by (rewrite ?repeat_length; lia).
  rewrite repeat_length.
  replace (Z.to_nat off + Z.to_nat n)%nat with (Z.to_nat (off + n)) by lia.
  reflexivity.
Qed.

Lemma grown_app c ns junk :
  Z.of_nat (length c) <= ns ->
  grown c ns junk = c ++ map junk (seq (length c) (Z.to_nat ns - length c)).
Proof. intros H. unfold grown. rewrite take_ge by lia. reflexivity. Qed.

Lemma length_grown c ns junk :
  Z.of_nat (length c) <= ns -> Z.of_nat (length (grown c ns junk)) = ns.
Proof.
  intros H. rewrite grown_app by done.
  rewrite length_app, length_map, length_seq. lia.
Qed.

(** A successful [krealloc] leaves a heap [<[nd := block]> h0] where [h0] is
    the old heap without the old block: every other object is where it was,
    and the allocator is still ahead of every address in use. *)
Lemma krealloc_ok st p c ns moved junk :
  alloc_fresh st ->
  match p with None => c = [] | Some l => get_buf st l = Some c end ->
  exists nd h0 nl,
    krealloc p ns (KOk moved junk) st
    = (Ok (Some nd),
       mk_state (<[nd := OBuf (grown c ns junk)]> h0) nl (last_ino st)) /\
    h0 !! nd = None /\ (next_loc st <= nl)%positive /\ (nd < nl)%positive /\
    (forall l, (nl <= l)%positive -> h0 !! l = None) /\
    (forall l o, heap st !! l = Some o -> p <> Some l -> h0 !! l = Some o).
Proof.
  intros Hfresh Hp. destruct p as [l|].
  - apply get_buf_Some in Hp.
    assert (l < next_loc st)%positive as Hl.
    { destruct (Pos.ltb_spec l (next_loc st)); [done|].
      rewrite Hfresh in Hp; [done|lia]. }
    destruct moved.
    + exists (next_loc st), (delete l (heap st)), (Pos.succ (next_loc st)).
      unfold krealloc, bind, load, get_buf, kfree, alloc, ret.
      rewrite Hp. simpl. rewrite Hp. simpl.
      split; [reflexivity|].
      split; [rewrite lookup_delete_ne by lia; apply Hfresh; lia|].
      split; [lia|]. split; [lia|].
      split.
      * intros l' Hl'. rewrite lookup_delete_ne by lia. apply Hfresh. lia.
      * intros l' o Ho Hne. rewrite lookup_delete_ne by congruence. done.
    + exists l, (delete l (heap st)), (next_loc st).
      unfold krealloc, bind, load, get_buf, store, ret. rewrite Hp. simpl.
      unfold set_heap. rewrite insert_delete_eq.
      split; [reflexivity|].
      split; [apply lookup_delete_eq|].
      split; [lia|]. split; [lia|].
      split.
      * intros l' Hl'. rewrite lookup_delete_ne by lia. apply Hfresh. lia.
      * intros l' o Ho Hne. rewrite lookup_delete_ne by congruence. done.
  - subst c. exists (next_loc st), (heap st), (Pos.succ (next_loc st)).
    unfold krealloc, bind, alloc, ret. simpl.
    split; [reflexivity|].
    split; [apply Hfresh; lia|].
    split; [lia|]. split; [lia|].
    split.
    + intros l' Hl'. apply Hfresh. lia.
    + intros l' o Ho _. done.
Qed.

(** [copy_from_user] of a fully readable buffer into a block that has room. *)
Lemma copy_from_user_full st dl b off ubuf :
  get_buf st dl = Some b -> 0 <= off ->
  off + Z.of_nat (length ubuf) <= Z.of_nat (length b) ->
  exists st',
    copy_from_user (Some dl) off ubuf (Z.of_nat (length ubuf)) st = (Ok 0, st') /\
    next_loc st' = next_loc st /\ last_ino st' = last_ino st /\
    (forall l, l <> dl -> heap st' !! l = heap st !! l) /\
    get_buf st' dl
    = Some (take (Z.to_nat off) b ++ ubuf ++ drop (Z.to_nat off + length ubuf) b).
Proof.
  intros Hb H0 H1. unfold copy_from_user.
  rewrite Z.min_id, Z.sub_diag, Nat2Z.id, firstn_all. simpl repeat.
  rewrite app_nil_r.
  destruct ubuf as [|x u].
  - exists st. split; [reflexivity|]. split; [done|]. split; [done|].
    split; [done|].
    simpl. rewrite Nat.add_0_r, take_drop. done.
  - set (ub := x :: u) in *.
    eexists. unfold bind. rewrite (load_ok _ _ _ _ Hb).
    rewrite write_bytes_ok by done. unfold store, ret. cbv beta iota.
    split; [subst ub; reflexivity|].
    split; [done|]. split; [done|]. split.
    + intros l Hl. simpl. by rewrite lookup_insert_ne.
    + apply get_buf_Some. simpl. by rewrite lookup_insert_eq.
Qed.

(** ** File content *)

(** A write whose allocation and user copy succeed returns [len], advances the
    position by [len], and leaves the file holding [content_after_write]. *)
Lemma vtfs_write_content st fi c moved junk bytes ppos :
  file_at st fi c -> alloc_fresh st ->
  0 <= ppos -> ppos + Z.of_nat (length bytes) < 2 ^ 63 ->
  exists st',
    vtfs_write (KOk moved junk) bytes fi (Z.of_nat (length bytes)) ppos st
    = (Ok (Z.of_nat (length bytes)), ppos + Z.of_nat (length bytes), st') /\
    file_at st' fi (content_after_write c ppos bytes) /\ alloc_fresh st'.
Proof.
  intros (i & fl & fd & Hi & Hpriv & Hf & Hsz & Hlt & Hd) Hfresh Hp0 Hp1.
  unfold content_after_write.
  set (len := Z.of_nat (length bytes)) in *.
  unfold vtfs_write. rewrite Hi, Hpriv.
  unfold bind at 1. rewrite (load_ok _ _ _ _ Hf).
  rewrite (wrap64_small (ppos + len)) by lia.
  rewrite (sint64_small (ppos + len)) by lia.
  destruct (Z.ltb_spec (size fd) (Z.max (ppos + len) (size fd))) as [Hg|Hg].
  - (* the block grows *)
    replace (Z.max (ppos + len) (size fd)) with (ppos + len) in * by lia.
    destruct (krealloc_ok st (data fd) c (ppos + len) moved junk Hfresh Hd)
      as (nd & h0 & nl & Hk & Hnd & Hnl & Hndlt & Hh0fresh & Hh0).
    unfold bind at 1. unfold bind at 1. rewrite Hk. cbv beta iota.
    unfold bind at 1. unfold bind at 1.
    match goal with |- context [memset0 nd _ _ ?s] =>
      assert (get_buf s nd = Some (grown c (ppos + len) junk)) as Hb1
    end.
    { apply get_buf_Some. simpl. by rewrite lookup_insert_eq. }
    rewrite (memset0_ok _ _ _ _ _ Hb1) by (rewrite ?length_grown; lia).
    cbv beta iota.
    set (b2 := take _ _ ++ _ ++ drop _ _).
    assert (b2 = c ++ repeat x00 (Z.to_nat (ppos + len) - length c)) as Hb2.
    { subst b2. rewrite grown_app by lia.
      rewrite Hsz, Nat2Z.id, take_app_length.
      rewrite drop_ge by (rewrite length_app, length_map, length_seq; lia).
      rewrite app_nil_r. f_equal. f_equal. lia. }
    clearbody b2. subst b2.
    set (pad := c ++ repeat x00 _) in *.
    assert (Z.of_nat (length pad) = ppos + len) as Hpad.
    { subst pad. rewrite length_app, repeat_length. lia. }
    unfold bind at 1.
    match goal with |- context [memset0 nd _ _ ?s] =>
      assert (get_buf s nd = Some pad) as Hb2
    end.
    { apply get_buf_Some. simpl. by rewrite lookup_insert_eq. }
    rewrite (memset0_ok _ _ _ _ _ Hb2) by lia.
    cbv beta iota.
    set (b3 := take _ _ ++ _ ++ drop _ _).
    assert (b3 = pad) as Hb3.
    { subst b3 pad. rewrite Hsz, Nat2Z.id, take_app_length.
      rewrite drop_ge by (rewrite length_app, repeat_length; lia).
      rewrite app_nil_r. f_equal. f_equal. lia. }
    clearbody b3. subst b3.
    unfold bind at 1. unfold store at 1. cbv beta iota.
    unfold ret at 1. cbv beta iota.
    set (fd' := set_content fd (Some nd) (ppos + len)).
    assert (heap st !! fi = Some (OInode i)) as Hi0 by by apply get_inode_Some.
    assert (heap st !! fl = Some (OFile fd)) as Hf0 by by apply get_file_Some.
    assert (h0 !! fi = Some (OInode i)) as Hi1.
    { apply Hh0; [done|]. intros E. rewrite E in Hd.
      apply get_buf_Some in Hd. congruence. }
    assert (h0 !! fl = Some (OFile fd)) as Hf1.
    { apply Hh0; [done|]. intros E. rewrite E in Hd.
      apply get_buf_Some in Hd. congruence. }
    assert (fi <> nd) by congruence. assert (fl <> nd) by congruence.
    assert (fi <> fl) by congruence.
    match goal with |- context [copy_from_user _ _ _ _ ?s] =>
      set (st3 := s);
      assert (get_buf st3 nd = Some pad) as Hb3
    end.
    { apply get_buf_Some. subst st3. simpl.
      rewrite lookup_insert_ne by done. by rewrite lookup_insert_eq. }
    destruct (copy_from_user_full st3 nd pad ppos bytes Hb3 Hp0 ltac:(fold len; lia))
      as (st4 & Hc & Hnl4 & Hino4 & Hframe & Hb4).
    change (data fd') with (Some nd). fold len in Hc. rewrite Hc.
    cbv beta iota. simpl negb. cbv iota. unfold ret.
    exists st4. split; [reflexivity|]. split.
    + exists i, fl, fd'. split.
      { apply get_inode_Some. rewrite Hframe by done. subst st3. simpl.
        by rewrite !lookup_insert_ne by done. }
      split; [done|]. split.
      { apply get_file_Some. rewrite Hframe by done. subst st3. simpl.
        by rewrite lookup_insert_eq. }
      split.
      { simpl. rewrite !length_app, length_take, length_drop. lia. }
      split; [simpl; lia|].
      simpl. exact Hb4.
    + intros l Hl. rewrite Hnl4 in Hl. subst st3. simpl in Hl.
      rewrite Hframe by lia. simpl.
      assert (nd <> l) by lia.
      assert (fl <> l) by (intros ->; rewrite Hh0fresh in Hf1; [done|lia]).
      rewrite !lookup_insert_ne by done.
      apply Hh0fresh. done.
  - (* the size already covers the write *)
    assert (ppos + len <= size fd) as Hle by lia.
    replace (Z.max (ppos + len) (size fd)) with (size fd) in * by lia.
    clear Hg.
    unfold bind at 1. unfold ret at 1. cbv beta iota.
    replace (Z.to_nat (ppos + len) - length c)%nat with 0%nat by lia.
    simpl repeat. rewrite app_nil_r.
    destruct (data fd) as [dl|] eqn:Ed.
    + destruct (copy_from_user_full st dl c ppos bytes Hd Hp0 ltac:(fold len; lia))
        as (st4 & Hc & Hnl4 & Hino4 & Hframe & Hb4).
      fold len in Hc. unfold bind at 1. rewrite Hc.
      cbv beta iota. simpl negb. cbv iota. unfold ret.
      exists st4. split; [reflexivity|].
      apply get_buf_Some in Hd.
      split.
      * exists i, fl, fd. split.
        { apply get_inode_Some. rewrite Hframe; [by apply get_inode_Some|].
          intros ->. apply get_inode_Some in Hi. congruence. }
        split; [done|]. split.
        { apply get_file_Some. rewrite Hframe; [by apply get_file_Some|].
          intros ->. apply get_file_Some in Hf. congruence. }
        split.
        { rewrite !length_app, length_take, length_drop. lia. }
        split; [done|]. rewrite Ed. exact Hb4.
      * intros l Hl. rewrite Hnl4 in Hl. rewrite Hframe; [by apply Hfresh|].
        intros ->. rewrite Hfresh in Hd; done.
    + subst c. simpl in Hsz. assert (bytes = []) as ->.
      { destruct bytes; [done|]. simpl in len. lia. }
      exists st. split; [reflexivity|]. split; [|done].
      exists i, fl, fd. rewrite Ed. simpl. rewrite take_nil, drop_nil. done.
Qed.

(** A read at an offset inside the file, or exactly at its end, returns the
    bytes from that offset, at most [len] of them, and advances the position
    by their number. *)
Lemma vtfs_read_content st fi c len ppos :
  file_at st fi c -> 0 <= ppos <= Z.of_nat (length c) -> 0 <= len < 2 ^ 64 ->
  vtfs_read true fi len ppos st
  = (Ok (take (Z.to_nat len) (drop (Z.to_nat ppos) c)),
     ppos + Z.min len (Z.of_nat (length c) - ppos), st).
Proof.
  intros (i & fl & fd & Hi & Hpriv & Hf & Hsz & Hlt & Hd) Hp Hl.
  unfold vtfs_read. rewrite Hi, Hpriv, Hf.
  destruct (data fd) as [dl|].
  - rewrite wrap64_small by lia.
    destruct (Z.leb_spec (size fd - ppos) 0) as [Ha|Ha].
    + rewrite drop_ge by lia. rewrite take_nil. do 2 f_equal. lia.
    + rewrite Hd. unfold read_bytes.
      set (n := Z.min len (size fd - ppos)).
      destruct (Z.eqb_spec n 0) as [Hn|Hn].
      * assert (len = 0) by lia. subst len. simpl take.
        rewrite Hn, Z.min_l, !Z.add_0_r by lia.
        rewrite wrap64_small, sint64_small by lia. reflexivity.
      * assert (((0 <=? ppos) && (ppos + n <=? Z.of_nat (length c))) = true)
          as ->.
        { apply andb_true_iff. split; apply Z.leb_le; lia. }
        rewrite wrap64_small, sint64_small by lia.
        rewrite <- Hsz. fold n. do 2 f_equal.
        destruct (Z.le_ge_cases len (size fd - ppos)).
        { subst n. by rewrite Z.min_l. }
        { rewrite !take_ge; [done| |]; rewrite length_drop; lia. }
  - subst c. simpl in *. rewrite drop_nil, take_nil. do 2 f_equal. lia.
Qed.

(** The number of bytes a read inside the file returns is
    [min(len, size - offset)]. *)
Lemma vtfs_read_count st fi c len ppos :
  file_at st fi c -> 0 <= ppos <= Z.of_nat (length c) -> 0 <= len < 2 ^ 64 ->
  exists out,
    fst (fst (vtfs_read true fi len ppos st)) = Ok out /\
    Z.of_nat (length out) = Z.min len (Z.of_nat (length c) - ppos).
Proof.
  intros Hf Hp Hl. rewrite (vtfs_read_content _ _ _ _ _ Hf Hp Hl).
  eexists. split; [reflexivity|].
  rewrite length_take, length_drop. lia.
Qed.

Lemma content_after_write_window (c bytes : list byte) (off : Z) :
  0 <= off ->
  take (length bytes) (drop (Z.to_nat off) (content_after_write c off bytes))
  = bytes.
Proof.
  intros H0. unfold content_after_write.
  set (pad := c ++ repeat x00 _).
  assert (Z.to_nat off + length bytes <= length pad)%nat as Hpad.
  { subst pad. rewrite length_app, repeat_length. lia. }
  rewrite drop_app_length'; [|rewrite length_take; lia].
  by rewrite take_app_length.
Qed.

Lemma length_content_after_write (c bytes : list byte) (off : Z) :
  0 <= off ->
  Z.of_nat (length (content_after_write c off bytes))
  = Z.max (off + Z.of_nat (length bytes)) (Z.of_nat (length c)).
Proof.
  intros H0. unfold content_after_write.
  rewrite !length_app, length_take, length_drop, length_app, repeat_length. lia.
Qed.

(** Facts about the concrete runs that the statements below rely on. *)
Lemma st_f_fresh : alloc_fresh Run.st_f.
Proof. apply alloc_fresh_iff. apply (bool_decide_unpack _). vm_compute. exact I. Defined.

Lemma st_f_empty_file : file_at Run.st_f Run.f_inode [].
Proof.
  exists (mk_inode 1 Run.reg 1 (Some 4%positive) (Some vtfs_file_ops)), 4%positive,
         (mk_file (Some "f") 1 Run.reg (Some Run.f_inode) 0 None).
  vm_compute. repeat split; reflexivity.
Defined.

Lemma st_ab_file : file_at Run.st_ab Run.f_inode [x41; x42].
Proof.
  exists (mk_inode 1 Run.reg 1 (Some 4%positive) (Some vtfs_file_ops)), 4%positive,
         (mk_file (Some "f") 1 Run.reg (Some Run.f_inode) 2 (Some 6%positive)).
  vm_compute. repeat split; reflexivity.
Defined.

Lemma st_ab_bounded : buffers_bounded Run.st_ab.
Proof. apply (bool_decide_unpack _). vm_compute. exact I. Defined.

Lemma take_repeat {A} (x : A) (n m : nat) :
  take n (repeat x m) = repeat x (Nat.min n m).
Proof.
  revert m. induction n as [|n IH]; intros [|m]; simpl; try done.
  by rewrite IH.
Qed.

Lemma content_after_write_past_end (c bytes : list byte) (off : Z) :
  Z.of_nat (length c) <= off ->
  content_after_write c off bytes
  = c ++ repeat x00 (Z.to_nat off - length c) ++ bytes.
Proof.
  intros H0. unfold content_after_write.
  rewrite take_app_ge by lia. rewrite take_repeat.
  rewrite drop_ge by (rewrite length_app, repeat_length; lia).
  rewrite app_nil_r, <- app_assoc. do 3 f_equal. lia.
Qed.

Lemma st_ab_fresh : alloc_fresh Run.st_ab.
Proof. apply alloc_fresh_iff. apply (bool_decide_unpack _). vm_compute. exact I. Defined.

(** C7. For every file, a write of [bytes] at [offset] (with the allocation
    and the copy from the caller succeeding) followed by a read of
    [len(bytes)] at [offset] returns exactly [bytes]; for every file and
    every offset at or past its size, the write leaves the old bytes, then
    zero bytes from the old size up to the offset, then [bytes], whatever
    the allocator left in the grown block: reading the gap returns zeros
    only, and reading from 0 returns the whole of it; and on an empty file,
    writing "AB" at offset 0 and then "X" at offset 5 makes bytes [0,6) read
    as A B 0 0 0 X. *)
Theorem vtfs_write_read_roundtrip :
  (forall st fi c moved junk bytes ppos,
      file_at st fi c -> alloc_fresh st ->
      0 <= ppos -> ppos + Z.of_nat (length bytes) < 2 ^ 63 ->
      exists st',
        vtfs_write (KOk moved junk) bytes fi (Z.of_nat (length bytes)) ppos st
        = (Ok (Z.of_nat (length bytes)), ppos + Z.of_nat (length bytes), st') /\
        vtfs_read true fi (Z.of_nat (length bytes)) ppos st'
        = (Ok bytes, ppos + Z.of_nat (length bytes), st'))
  /\
  (forall st fi c moved junk bytes ppos,
      file_at st fi c -> alloc_fresh st ->
      Z.of_nat (length c) <= ppos -> ppos + Z.of_nat (length bytes) < 2 ^ 63 ->
      let gap := repeat x00 (Z.to_nat ppos - length c) in
      exists st',
        vtfs_write (KOk moved junk) bytes fi (Z.of_nat (length bytes)) ppos st
        = (Ok (Z.of_nat (length bytes)), ppos + Z.of_nat (length bytes), st') /\
        file_at st' fi (c ++ gap ++ bytes) /\
        vtfs_read true fi (ppos - Z.of_nat (length c)) (Z.of_nat (length c)) st'
        = (Ok gap, ppos, st') /\
        vtfs_read true fi (ppos + Z.of_nat (length bytes)) 0 st'
        = (Ok (c ++ gap ++ bytes), ppos + Z.of_nat (length bytes), st'))
  /\
  (file_at Run.st_f Run.f_inode [] /\
   forall m1 j1 m2 j2,
     let w1 := vtfs_write (KOk m1 j1) [x41; x42] Run.f_inode 2 0 Run.st_f in
     let w2 := vtfs_write (KOk m2 j2) [x58] Run.f_inode 1 5 (snd w1) in
     fst w1 = (Ok 2, 2) /\ fst w2 = (Ok 1, 6) /\
     fst (vtfs_read true Run.f_inode 6 0 (snd w2))
     = (Ok [x41; x42; x00; x00; x00; x58], 6)).
Proof.
  split; [|split].
  - intros st fi c moved junk bytes ppos Hf Hfresh Hp0 Hp1.
    destruct (vtfs_write_content _ _ _ moved junk bytes _ Hf Hfresh Hp0 Hp1)
      as (st' & Hw & Hf' & _).
    exists st'. split; [exact Hw|].
    pose proof (length_content_after_write c bytes ppos Hp0) as Hlen.
    rewrite (vtfs_read_content _ _ _ _ _ Hf') by lia.
    rewrite Nat2Z.id, content_after_write_window by done.
    do 2 f_equal. lia.
  - intros st fi c moved junk bytes ppos Hf Hfresh Hp0 Hp1 gap.
    destruct (vtfs_write_content _ _ _ moved junk bytes ppos Hf Hfresh
                ltac:(lia) Hp1) as (st' & Hw & Hf' & _).
    rewrite content_after_write_past_end in Hf' by done. fold gap in Hf'.
    assert (length gap = (Z.to_nat ppos - length c)%nat) as Hgap
      by apply repeat_length.
    exists st'. split; [exact Hw|]. split; [exact Hf'|]. split.
    + rewrite (vtfs_read_content _ _ _ _ _ Hf')
        by (rewrite ?length_app, ?Hgap; lia).
      rewrite Nat2Z.id, drop_app_length.
      rewrite (take_app_length' gap bytes) by lia.
      do 2 f_equal. rewrite !length_app, Hgap. lia.
    + rewrite (vtfs_read_content _ _ _ _ _ Hf')
        by (rewrite ?length_app, ?Hgap; lia).
      rewrite drop_0, take_ge by (rewrite ?length_app, ?Hgap; lia).
      do 2 f_equal. rewrite !length_app, Hgap. lia.
  - split; [exact st_f_empty_file|].
    intros m1 j1 m2 j2. destruct m1, m2; vm_compute; done.
Qed.

Lemma vtfs_write_read_roundtrip_witness :
  (exists st',
      vtfs_write (KOk true (λ _, x00)) [x41; x42] Run.f_inode 2 0 Run.st_f
      = (Ok 2, 2, st') /\
      vtfs_read true Run.f_inode 2 0 st' = (Ok [x41; x42], 2, st')) /\
  (exists st',
      vtfs_write (KOk true (λ _, x07)) [x58] Run.f_inode 1 5 Run.st_ab
      = (Ok 1, 6, st') /\
      file_at st' Run.f_inode [x41; x42; x00; x00; x00; x58] /\
      vtfs_read true Run.f_inode 3 2 st' = (Ok [x00; x00; x00], 5, st') /\
      vtfs_read true Run.f_inode 6 0 st'
      = (Ok [x41; x42; x00; x00; x00; x58], 6, st')).
Proof.
  split.
  - exact (proj1 vtfs_write_read_roundtrip Run.st_f Run.f_inode [] true
             (λ _, x00) [x41; x42] 0 st_f_empty_file st_f_fresh
             ltac:(lia) ltac:(simpl; lia)).
  - exact (proj1 (proj2 vtfs_write_read_roundtrip) Run.st_ab Run.f_inode
             [x41; x42] true (λ _, x07) [x58] 5 st_ab_file st_ab_fresh
             ltac:(simpl; lia) ltac:(simpl; lia)).
Defined.

(** C8. A write that has to grow the block and whose [krealloc] fails returns
    [ENOMEM] and changes nothing: the heap (the file's size and bytes with
    it) and the file position are the ones before the call. *)
Theorem vtfs_write_enomem ubuf fi len ppos st i fl fd :
  get_inode st fi = Some i -> i_private i = Some fl ->
  get_file st fl = Some fd ->
  size fd < wrap64 (ppos + len) ->
  vtfs_write KFail ubuf fi len ppos st = (Error ENOMEM, ppos, st).
Proof.
  intros Hi Hp Hf Hg. unfold vtfs_write. rewrite Hi, Hp.
  unfold bind at 1. unfold load at 1. rewrite Hf.
  assert ((size fd <? Z.max (wrap64 (ppos + len)) (size fd)) = true) as ->
    by (apply Z.ltb_lt; lia).
  reflexivity.
Qed.

Lemma vtfs_write_enomem_witness :
  vtfs_write KFail [x41; x42; x58] Run.f_inode 3 0 Run.st_ab
  = (Error ENOMEM, 0, Run.st_ab).
Proof.
  apply (vtfs_write_enomem [x41; x42; x58] Run.f_inode 3 0 Run.st_ab
           (mk_inode 1 Run.reg 1 (Some 4%positive) (Some vtfs_file_ops))
           4%positive
           (mk_file (Some "f") 1 Run.reg (Some Run.f_inode) 2 (Some 6%positive)));
    vm_compute; reflexivity.
Defined.

(** C10. A read never changes the heap, so the file's size and bytes are the
    same after it; the file position advances by exactly the number of bytes
    returned, and stays where it was when the read returns an error. *)
Theorem vtfs_read_frame uok fi len ppos st :
  0 <= ppos < 2 ^ 63 -> 0 <= len < 2 ^ 64 -> buffers_bounded st ->
  match vtfs_read uok fi len ppos st with
  | (Ok out, ppos', st') => st' = st /\ ppos' = ppos + Z.of_nat (length out)
  | (_, ppos', st') => st' = st /\ ppos' = ppos
  end.
Proof.
  intros Hp Hl Hb. unfold vtfs_read.
  destruct (get_inode st fi) as [i|]; [|done].
  destruct (i_private i) as [fl|]; [|split; [done|simpl; lia]].
  destruct (get_file st fl) as [fd|]; [|done].
  destruct (data fd) as [dl|]; [|split; [done|simpl; lia]].
  pose proof (wrap64_range (size fd - ppos)) as Hav.
  destruct (_ <=? 0) eqn:Ea; [split; [done|simpl; lia]|].
  apply Z.leb_gt in Ea.
  destruct (get_buf st dl) as [b|] eqn:Eb; [|done].
  destruct (read_bytes b ppos _) as [out|] eqn:Er; [|done].
  destruct uok; [|done].
  split; [done|].
  set (n := Z.min len _) in *.
  assert (0 <= n) as Hn0 by lia.
  rewrite (read_bytes_length _ _ _ _ Hn0 Er).
  destruct (Z.eq_dec n 0) as [->|Hn].
  - rewrite Z.add_0_r, wrap64_small, sint64_small; lia.
  - pose proof (read_bytes_bound _ _ _ _ Hn Er).
    pose proof (buffers_bounded_buf _ _ _ Hb Eb).
    rewrite wrap64_small, sint64_small; lia.
Qed.

Lemma vtfs_read_frame_witness :
  match vtfs_read true Run.f_inode 1 0 Run.st_ab with
  | (Ok out, ppos', st') => st' = Run.st_ab /\ ppos' = 0 + Z.of_nat (length out)
  | (_, ppos', st') => st' = Run.st_ab /\ ppos' = 0
  end.
Proof.
  apply (vtfs_read_frame true Run.f_inode 1 0 Run.st_ab);
    [lia | lia | exact st_ab_bounded].
Defined.

(** What [vtfs_read] does with an offset past the end of a non-empty file:
    [size - offset] wraps to a huge unsigned value, the test [available <= 0]
    does not fire, and [copy_to_user] is asked to read outside the block. *)
Lemma vtfs_read_beyond_size uok st fi c len ppos :
  file_at st fi c -> c <> [] ->
  Z.of_nat (length c) < ppos < 2 ^ 63 -> 0 < len < 2 ^ 64 ->
  vtfs_read uok fi len ppos st = (Fault, ppos, st).
Proof.
  intros (i & fl & fd & Hi & Hpriv & Hf & Hsz & Hlt & Hd) Hc Hp Hl.
  unfold vtfs_read. rewrite Hi, Hpriv, Hf.
  destruct (data fd) as [dl|]; [|done].
  assert (wrap64 (size fd - ppos) = size fd - ppos + 2 ^ 64) as ->.
  { unfold wrap64. rewrite <- (Z_mod_plus_full _ 1).
    rewrite Z.mod_small; lia. }
  destruct (Z.leb_spec (size fd - ppos + 2 ^ 64) 0); [lia|].
  rewrite Hd. unfold read_bytes.
  destruct (Z.eqb_spec (Z.min len (size fd - ppos + 2 ^ 64)) 0); [lia|].
  assert ((ppos + Z.min len (size fd - ppos + 2 ^ 64) <=? Z.of_nat (length c))
          = false) as -> by (apply Z.leb_gt; lia).
  rewrite andb_false_r. reflexivity.
Qed.

(** C2 (the code departs from it).  The file holds "AB"; a read of one byte
    at offset 5, past its end, is not an empty result: [available] is
    [2^64 - 3], [to_copy] is 1, and the code goes on to copy one byte from
    outside the block.  At offset 2, the end of the file, the result is
    empty. *)
Theorem vtfs_read_past_end :
  file_at Run.st_ab Run.f_inode [x41; x42] /\
  wrap64 (2 - 5) = 2 ^ 64 - 3 /\
  Z.min 1 (wrap64 (2 - 5)) = 1 /\
  vtfs_read true Run.f_inode 1 5 Run.st_ab = (Fault, 5, Run.st_ab) /\
  vtfs_read true Run.f_inode 1 2 Run.st_ab = (Ok [], 2, Run.st_ab).
Proof.
  split; [exact st_ab_file|].
  repeat split; vm_compute; reflexivity.
Qed.

(** ** Directories *)

Ltac unfold_ops :=
  unfold vtfs_get_inode, set_private, list_add, list_add_tail,
    inode_inc_link_count, inode_dec_link_count, kstrdup, get_next_ino,
    scan, deref;
  unfold bind, load, fail, ret, alloc, store, kfree, fault.

Ltac heap_lookups :=
  repeat (first [ rewrite lookup_insert_eq
                | rewrite lookup_insert_ne by (lia || done)
                | rewrite lookup_delete_ne by (lia || done) ]; simpl).

Lemma fresh_lt st l o :
  alloc_fresh st -> heap st !! l = Some o -> (l < next_loc st)%positive.
Proof.
  intros Hf Hl. destruct (Pos.ltb_spec l (next_loc st)); [done|].
  rewrite Hf in Hl; done.
Qed.

Lemma listing_length st l ents :
  listing st l = Some ents -> length ents = length l.
Proof.
  revert ents. induction l as [|e l IH]; intros ents H; simpl in H.
  - by injection H as <-.
  - destruct (get_file st e); [|done].
    destruct (dirent_of _); [|done].
    destruct (listing st l) as [des|]; [|done].
    injection H as <-. simpl. f_equal. by apply IH.
Qed.

(** The loop of [vtfs_iterate] skips the entries before [offset] and emits
    all the others in list order, as long as [dir_emit] accepts them. *)
Lemma iterate_loop_from st offset l :
  forall index cap pos ents,
    listing st l = Some ents ->
    0 <= index -> index + Z.of_nat (length l) < 2 ^ 64 ->
    0 <= pos -> pos + Z.of_nat (length l) < 2 ^ 63 ->
    (length l <= cap)%nat ->
    iterate_loop st offset index cap pos l
    = (Ok tt, drop (Z.to_nat (offset - index)) ents,
       pos + Z.of_nat (length (drop (Z.to_nat (offset - index)) ents))).
Proof.
  induction l as [|e l IH]; intros index cap pos ents Hl Hi Hib Hp Hpb Hcap.
  - injection Hl as <-. simpl. rewrite drop_nil. simpl. f_equal. lia.
  - simpl in Hl.
    destruct (get_file st e) as [entry|] eqn:Ee; [|done].
    unfold dirent_of in Hl.
    destruct (name entry) as [n|] eqn:En; [|done].
    destruct (listing st l) as [ents'|] eqn:El; [|done].
    injection Hl as <-.
    simpl length in *. simpl iterate_loop.
    rewrite (wrap64_small (index + 1)) by lia.
    destruct (Z.ltb_spec index offset) as [Hlt|Hge].
    + rewrite (IH (index + 1) cap pos ents') by (try done; lia).
      replace (Z.to_nat (offset - index))
        with (S (Z.to_nat (offset - (index + 1)))) by lia.
      reflexivity.
    + rewrite Ee, En. destruct cap as [|cap]; [lia|].
      rewrite (sint64_small (pos + 1)) by lia.
      rewrite (IH (index + 1) cap (pos + 1) ents') by (try done; lia).
      replace (Z.to_nat (offset - (index + 1))) with 0%nat by lia.
      replace (Z.to_nat (offset - index)) with 0%nat by lia.
      rewrite !drop_0, length_cons. f_equal. lia.
Qed.

(** Enumeration from [pos] yields the [pos]-th and later entries of the
    directory's list, in list order, and leaves the position after them. *)
Lemma vtfs_iterate_from_offset st fi i dl d ents cap pos :
  get_inode st fi = Some i -> i_private i = Some dl -> get_dir st dl = Some d ->
  listing st (children d) = Some ents ->
  (length ents <= cap)%nat ->
  0 <= pos -> pos + Z.of_nat (length ents) < 2 ^ 63 ->
  vtfs_iterate cap fi pos st
  = (Ok tt, drop (Z.to_nat pos) ents,
     pos + Z.of_nat (length (drop (Z.to_nat pos) ents))).
Proof.
  intros Hi Hp Hd Hl Hcap Hp0 Hp1.
  assert (length (children d) = length ents) as Hlen.
  { symmetry. by apply (listing_length st). }
  unfold vtfs_iterate. rewrite Hi, Hp, Hd.
  rewrite wrap64_small by lia.
  rewrite (iterate_loop_from st pos _ 0 cap pos ents Hl) by lia.
  rewrite Z.sub_0_r. reflexivity.
Qed.

(** Where a new entry lands in its parent's list: [vtfs_create] puts it
    first, [vtfs_mkdir] and [vtfs_link] put it last. *)
Lemma vtfs_create_prepends o pil cd md st de st' pi pdl d :
  alloc_fresh st ->
  get_inode st pil = Some pi -> i_private pi = Some pdl ->
  get_dir st pdl = Some d ->
  vtfs_create o pil cd md st = (Ok de, st') ->
  exists e,
    get_dir st' pdl = Some (mk_dir (e :: children d) (self d)) /\
    (name <$> get_file st' e) = Some (kstrdup (name_ok o) (d_name cd)) /\
    get_file st e = None.
Proof.
  intros Hfresh Hi Hp Hd. unfold vtfs_create.
  destruct (S_ISDIR md); [done|].
  unfold_ops. rewrite Hi, Hp, Hd.
  destruct (find_entry st (d_name cd) (children d)) as [[hit|]| |]; try done.
  destruct (file_ok o); [|done]. simpl negb. cbv iota.
  destruct (inode_ok o); [|done].
  apply get_dir_Some in Hd. pose proof (fresh_lt _ _ _ Hfresh Hd) as Hlt.
  unfold get_inode, get_dir. simpl.
  heap_lookups. rewrite Hd. simpl.
  intros [= <- <-]. exists (next_loc st).
  unfold get_dir, get_file. simpl. heap_lookups.
  rewrite (Hfresh (next_loc st)) by lia. done.
Qed.

Lemma vtfs_mkdir_appends o pil cd md st de st' pi pdl d :
  alloc_fresh st ->
  get_inode st pil = Some pi -> i_private pi = Some pdl ->
  get_dir st pdl = Some d ->
  vtfs_mkdir o (Some pil) (Some cd) md st = (Ok de, st') ->
  exists e,
    get_dir st' pdl = Some (mk_dir (children d ++ [e]) (self d)) /\
    (name <$> get_file st' e) = Some (Some (d_name cd)) /\
    get_file st e = None.
Proof.
  intros Hfresh Hi Hp Hd. unfold vtfs_mkdir.
  unfold_ops. rewrite Hi, Hp.
  destruct (file_ok o); [|done]. simpl negb. cbv iota.
  destruct (name_ok o); [|simpl; heap_lookups; done].
  destruct (dir_ok o); [|simpl; heap_lookups; done].
  destruct (inode_ok o); [|done].
  apply get_dir_Some in Hd. pose proof (fresh_lt _ _ _ Hfresh Hd) as Hlt.
  unfold get_inode, get_dir. simpl.
  heap_lookups. rewrite Hd. simpl.
  intros [= <- <-]. exists (next_loc st).
  unfold get_dir, get_file. simpl. heap_lookups.
  rewrite (Hfresh (next_loc st)) by lia. done.
Qed.

Lemma vtfs_link_appends o od pil nd st de st' pi pdl d :
  alloc_fresh st ->
  get_inode st pil = Some pi -> i_private pi = Some pdl ->
  get_dir st pdl = Some d ->
  vtfs_link o od pil nd st = (Ok de, st') ->
  exists e,
    get_dir st' pdl = Some (mk_dir (children d ++ [e]) (self d)) /\
    (name <$> get_file st' e) = Some (kstrdup (name_ok o) (d_name nd)) /\
    get_file st e = None.
Proof.
  intros Hfresh Hi Hp Hd. unfold vtfs_link.
  unfold_ops.
  destruct (d_inode od) as [oil|]; [|done].
  destruct (get_inode st oil) as [oi|] eqn:Hoi; [|done].
  rewrite Hi.
  destruct (i_private oi) as [ofl|]; [|done].
  destruct (get_file st ofl) as [old_file|]; [|done].
  destruct (S_ISDIR (mode old_file)); [done|].
  rewrite Hp, Hd.
  destruct (find_entry st (d_name nd) (children d)) as [[hit|]| |]; try done.
  destruct (file_ok o); [|done]. simpl negb. cbv iota.
  apply get_dir_Some in Hd. pose proof (fresh_lt _ _ _ Hfresh Hd) as Hlt.
  apply get_inode_Some in Hoi. pose proof (fresh_lt _ _ _ Hfresh Hoi) as Hlt'.
  assert (oil <> pdl) as Hne by congruence.
  assert (pdl <> oil) as Hne' by congruence.
  unfold get_inode, get_dir. simpl.
  heap_lookups. rewrite Hd. simpl. heap_lookups. rewrite Hoi. simpl.
  intros [= <- <-]. exists (next_loc st).
  unfold get_dir, get_file. simpl. heap_lookups.
  rewrite (Hfresh (next_loc st)) by lia. done.
Qed.

(** The name check: [vtfs_create] and [vtfs_link] refuse a name the parent
    already has and change nothing; [vtfs_mkdir] has no such exit. *)
Lemma vtfs_create_eexist o pil cd md st pi pdl d hit :
  S_ISDIR md = false ->
  get_inode st pil = Some pi -> i_private pi = Some pdl ->
  get_dir st pdl = Some d ->
  find_entry st (d_name cd) (children d) = Ok (Some hit) ->
  vtfs_create o pil cd md st = (Error EEXIST, st).
Proof.
  intros Hm Hi Hp Hd Hhit. unfold vtfs_create. rewrite Hm.
  unfold_ops. rewrite Hi, Hp, Hd, Hhit. reflexivity.
Qed.

Lemma vtfs_link_eexist o od pil nd st oil oi ofl old_file pi pdl d hit :
  d_inode od = Some oil -> get_inode st oil = Some oi ->
  i_private oi = Some ofl -> get_file st ofl = Some old_file ->
  S_ISDIR (mode old_file) = false ->
  get_inode st pil = Some pi -> i_private pi = Some pdl ->
  get_dir st pdl = Some d ->
  find_entry st (d_name nd) (children d) = Ok (Some hit) ->
  vtfs_link o od pil nd st = (Error EEXIST, st).
Proof.
  intros Ho Hoi Hop Hof Hm Hi Hp Hd Hhit. unfold vtfs_link.
  unfold_ops. rewrite Ho, Hoi, Hi, Hop, Hof, Hm, Hp, Hd, Hhit. reflexivity.
Qed.

Lemma vtfs_mkdir_never_eexist o p d md st :
  fst (vtfs_mkdir o p d md st) <> Error EEXIST.
Proof.
  unfold vtfs_mkdir.
  destruct p as [pil|], d as [cd|]; try done.
  unfold_ops.
  repeat (case_match; simplify_eq/=; try done).
Qed.

(** ** Where the code departs from the stated behaviour

    Each statement below runs the module's own operations from the empty heap
    and records what they return and leave behind. *)

Section Departures.

Import Run.

(** C1 (the code departs from it).  [f] holds "AB" and gets a second name
    [g]; both entries carry the same [data] pointer and the inode's link
    count is 2.  Unlinking [f] frees the block and the [vtfs_file] the inode
    points at while the count is still 1: [g] is still found and bound to
    the inode, its entry's [data] is dangling, a read through the inode
    touches freed memory, and unlinking [g] frees the block a second
    time. *)
Theorem vtfs_unlink_frees_shared_content :
  fst (vtfs_create all_ok root (neg "f") reg st_root) = Ok (pos "f" f_inode) /\
  fst (write_AB st_f) = (Ok 2, 2) /\
  fst (vtfs_link all_ok (pos "f" f_inode) root (neg "g") st_ab)
  = Ok (pos "g" f_inode) /\
  (i_nlink <$> get_inode st_linked f_inode) = Some 2 /\
  fst (vtfs_read true f_inode 2 0 st_linked) = (Ok [x41; x42], 2) /\
  fst (vtfs_unlink (Some root) (Some (pos "f" f_inode)) st_linked) = Ok tt /\
  fst (vtfs_lookup root (neg "g") st_unlinked) = Ok (pos "g" f_inode) /\
  (i_nlink <$> get_inode st_unlinked f_inode) = Some 1 /\
  (data <$> get_file st_unlinked 7%positive) = Some (Some 6%positive) /\
  heap st_unlinked !! 6%positive = None /\
  fst (vtfs_read true f_inode 2 0 st_unlinked) = (Fault, 0) /\
  fst (vtfs_unlink (Some root) (Some (pos "g" f_inode)) st_unlinked) = Fault.
Proof. vm_compute. repeat split; reflexivity. Qed.

(** C3 (the code departs from it).  The root already has an entry [f];
    [vtfs_mkdir] of the same name returns success, allocates a new inode
    and leaves two entries named [f]. *)
Theorem vtfs_mkdir_existing_name :
  entry_names st_f root = Some [Some "f"] /\
  fst (vtfs_mkdir all_ok (Some root) (Some (neg "f")) 493 st_f)
  = Ok (pos "f" 8%positive) /\
  entry_names st_dup root = Some [Some "f"; Some "f"] /\
  get_inode st_f 8%positive = None /\
  get_inode st_dup 8%positive
  = Some (mk_inode 2 (Z.lor S_IFDIR 493) 1 (Some 7%positive)
            (Some vtfs_dir_ops)).
Proof. vm_compute. repeat split; reflexivity. Qed.

(** C4 (the code departs from it).  [d] is a directory; [vtfs_unlink] of
    [d] returns success: the entry is gone from the root, its [vtfs_file]
    is freed, the link count of the directory's inode dropped to 0, and the
    directory record stays allocated with [self] pointing at the freed
    entry. *)
Theorem vtfs_unlink_removes_directory :
  fst (vtfs_mkdir all_ok (Some root) (Some (neg "d")) 493 st_root)
  = Ok (pos "d" d_inode) /\
  (S_ISDIR <$> (i_mode <$> get_inode st_d d_inode)) = Some true /\
  entry_names st_d root = Some [Some "d"] /\
  (i_nlink <$> get_inode st_d d_inode) = Some 1 /\
  let r := vtfs_unlink (Some root) (Some (pos "d" d_inode)) st_d in
  fst r = Ok tt /\
  entry_names (snd r) root = Some [] /\
  heap (snd r) !! 4%positive = None /\
  (i_nlink <$> get_inode (snd r) d_inode) = Some 0 /\
  get_dir (snd r) 5%positive = Some (mk_dir [] (Some 4%positive)).
Proof. vm_compute. repeat split; reflexivity. Qed.

(** C5 (the code departs from it).  [a] is created, then [b], then the
    directory [c] is made.  Enumeration from 0 yields [b], [a], [c]:
    [vtfs_create] put [b] before [a], [vtfs_mkdir] put [c] last.
    Enumeration from 1 yields [a], [c]. *)
Theorem vtfs_create_enumerated_first :
  fst (vtfs_create all_ok root (neg "a") reg st_root) = Ok (pos "a" 5%positive) /\
  fst (vtfs_create all_ok root (neg "b") reg st_a) = Ok (pos "b" 7%positive) /\
  fst (vtfs_mkdir all_ok (Some root) (Some (neg "c")) 493 st_a_b)
  = Ok (pos "c" 10%positive) /\
  vtfs_iterate 8 root 0 st_a_b_c
  = (Ok tt,
     [mk_dirent "b" 1 2 DT_REG; mk_dirent "a" 1 1 DT_REG;
      mk_dirent "c" 1 3 DT_DIR], 3) /\
  vtfs_iterate 8 root 1 st_a_b_c
  = (Ok tt, [mk_dirent "a" 1 1 DT_REG; mk_dirent "c" 1 3 DT_DIR], 3).
Proof. vm_compute. repeat split; reflexivity. Qed.

(** C6 (the code departs from it).  After [create f] and [mkdir f], both
    successful, the root holds two entries named [f].  Removing [f] with
    [vtfs_unlink] succeeds and a lookup of [f] still finds an entry, the
    directory's. *)
Theorem vtfs_duplicate_names_reachable :
  fst (vtfs_create all_ok root (neg "f") reg st_root) = Ok (pos "f" f_inode) /\
  fst (vtfs_mkdir all_ok (Some root) (Some (neg "f")) 493 st_f)
  = Ok (pos "f" 8%positive) /\
  entry_names st_dup root = Some [Some "f"; Some "f"] /\
  let r := vtfs_unlink (Some root) (Some (pos "f" f_inode)) st_dup in
  fst r = Ok tt /\
  entry_names (snd r) root = Some [Some "f"] /\
  fst (vtfs_lookup root (neg "f") (snd r)) = Ok (pos "f" 8%positive).
Proof. vm_compute. repeat split; reflexivity. Qed.

End Departures.

(** * Further properties of the operations *)

(** ** File content *)

Lemma length_user_image ubuf len :
  0 <= len -> Z.of_nat (length (user_image ubuf len)) = len.
Proof.
  intros H. unfold user_image. rewrite length_app, length_take, repeat_length. lia.
Qed.

Lemma copy_from_user_any st dl b off ubuf len :
  get_buf st dl = Some b -> 0 <= off -> 0 <= len ->
  off + len <= Z.of_nat (length b) ->
  exists st',
    copy_from_user (Some dl) off ubuf len st
    = (Ok (len - Z.min len (Z.of_nat (length ubuf))), st') /\
    next_loc st' = next_loc st /\ last_ino st' = last_ino st /\
    (forall l, l <> dl -> heap st' !! l = heap st !! l) /\
    get_buf st' dl
    = Some (take (Z.to_nat off) b ++ user_image ubuf len
              ++ drop (Z.to_nat off + Z.to_nat len) b).
Proof.
  intros Hb H0 Hl H1. unfold copy_from_user.
  set (n := Z.min len (Z.of_nat (length ubuf))).
  assert (take (Z.to_nat n) ubuf ++ repeat x00 (Z.to_nat (len - n))
          = user_image ubuf len) as ->.
  { unfold user_image. f_equal.
    - destruct (Z.le_ge_cases len (Z.of_nat (length ubuf))).
      + by replace n with len by lia.
      + rewrite !take_ge by lia. done.
    - f_equal. lia. }
  pose proof (length_user_image ubuf len Hl) as Hlen.
  destruct (user_image ubuf len) as [|x u].
  - assert (len = 0) as E0 by (simpl in Hlen; lia).
    exists st. split.
    { subst n. rewrite E0, Z.min_l by lia. reflexivity. }
    rewrite E0.
    split; [done|]. split; [done|]. split; [done|].
    simpl. rewrite Nat.add_0_r, take_drop. done.
  - set (img := x :: u) in *.
    eexists. unfold bind. rewrite (load_ok _ _ _ _ Hb).
    rewrite write_bytes_ok by lia. unfold store, ret. cbv beta iota.
    split; [subst img; reflexivity|].
    split; [done|]. split; [done|]. split.
    + intros l Hne. simpl. by rewrite lookup_insert_ne.
    + apply get_buf_Some. simpl. rewrite lookup_insert_eq.
      replace (S (length u)) with (Z.to_nat len) by (subst img; simpl in Hlen; lia).
      done.
Qed.

(** The general case of a write whose allocation succeeds: the file ends up
    holding what [copy_from_user] left, whether or not the copy was complete;
    an incomplete copy is reported as [EFAULT] with the position unchanged. *)
Lemma vtfs_write_any st fi c moved junk ubuf len ppos :
  file_at st fi c -> alloc_fresh st ->
  0 <= ppos -> 0 <= len -> ppos + len < 2 ^ 63 ->
  exists st',
    vtfs_write (KOk moved junk) ubuf fi len ppos st
    = (if len <=? Z.of_nat (length ubuf)
       then (Ok len, ppos + len, st') else (Error EFAULT, ppos, st')) /\
    file_at st' fi (content_after_write c ppos (user_image ubuf len)) /\
    alloc_fresh st'.
Proof.
  intros (i & fl & fd & Hi & Hpriv & Hf & Hsz & Hlt & Hd) Hfresh Hp0 Hl0 Hp1.
  unfold content_after_write.
  pose proof (length_user_image ubuf len Hl0) as Himg.
  set (img := user_image ubuf len) in *.
  replace (Z.of_nat (length img)) with len by lia.
  replace (length img) with (Z.to_nat len) by lia.
  assert (forall st' : state,
    (if negb (len - Z.min len (Z.of_nat (length ubuf)) =? 0)
     then (Error EFAULT, ppos, st')
     else (@Ok Z len, ppos + len, st'))
    = (if len <=? Z.of_nat (length ubuf)
       then (Ok len, ppos + len, st') else (Error EFAULT, ppos, st'))) as Hres.
  { intros st'. destruct (Z.leb_spec len (Z.of_nat (length ubuf))).
    - rewrite Z.min_l, Z.sub_diag by lia. reflexivity.
    - destruct (Z.eqb_spec (len - Z.min len (Z.of_nat (length ubuf))) 0); [lia|done]. }
  unfold vtfs_write. rewrite Hi, Hpriv.
  unfold bind at 1. rewrite (load_ok _ _ _ _ Hf).
  rewrite (wrap64_small (ppos + len)) by lia.
  rewrite (sint64_small (ppos + len)) by lia.
  destruct (Z.ltb_spec (size fd) (Z.max (ppos + len) (size fd))) as [Hg|Hg].
  - (* the block grows *)
    replace (Z.max (ppos + len) (size fd)) with (ppos + len) in * by lia.
    destruct (krealloc_ok st (data fd) c (ppos + len) moved junk Hfresh Hd)
      as (nd & h0 & nl & Hk & Hnd & Hnl & Hndlt & Hh0fresh & Hh0).
    unfold bind at 1. unfold bind at 1. rewrite Hk. cbv beta iota.
    unfold bind at 1. unfold bind at 1.
    match goal with |- context [memset0 nd _ _ ?s] =>
      assert (get_buf s nd = Some (grown c (ppos + len) junk)) as Hb1
    end.
    { apply get_buf_Some. simpl. by rewrite lookup_insert_eq. }
    rewrite (memset0_ok _ _ _ _ _ Hb1) by (rewrite ?length_grown; lia).
    cbv beta iota.
    set (b2 := take _ _ ++ _ ++ drop _ _).
    assert (b2 = c ++ repeat x00 (Z.to_nat (ppos + len) - length c)) as Hb2.
    { subst b2. rewrite grown_app by lia.
      rewrite Hsz, Nat2Z.id, take_app_length.
      rewrite drop_ge by (rewrite length_app, length_map, length_seq; lia).
      rewrite app_nil_r. f_equal. f_equal. lia. }
    clearbody b2. subst b2.
    set (pad := c ++ repeat x00 _) in *.
    assert (Z.of_nat (length pad) = ppos + len) as Hpad.
    { subst pad. rewrite length_app, repeat_length. lia. }
    unfold bind at 1.
    match goal with |- context [memset0 nd _ _ ?s] =>
      assert (get_buf s nd = Some pad) as Hb2
    end.
    { apply get_buf_Some. simpl. by rewrite lookup_insert_eq. }
    rewrite (memset0_ok _ _ _ _ _ Hb2) by lia.
    cbv beta iota.
    set (b3 := take _ _ ++ _ ++ drop _ _).
    assert (b3 = pad) as Hb3.
    { subst b3 pad. rewrite Hsz, Nat2Z.id, take_app_length.
      rewrite drop_ge by (rewrite length_app, repeat_length; lia).
      rewrite app_nil_r. f_equal. f_equal. lia. }
    clearbody b3. subst b3.
    unfold bind at 1. unfold store at 1. cbv beta iota.
    unfold ret at 1. cbv beta iota.
    set (fd' := set_content fd (Some nd) (ppos + len)).
    assert (heap st !! fi = Some (OInode i)) as Hi0 by by apply get_inode_Some.
    assert (heap st !! fl = Some (OFile fd)) as Hf0 by by apply get_file_Some.
    assert (h0 !! fi = Some (OInode i)) as Hi1.
    { apply Hh0; [done|]. intros E. rewrite E in Hd.
      apply get_buf_Some in Hd. congruence. }
    assert (h0 !! fl = Some (OFile fd)) as Hf1.
    { apply Hh0; [done|]. intros E. rewrite E in Hd.
      apply get_buf_Some in Hd. congruence. }
    assert (fi <> nd) by congruence. assert (fl <> nd) by congruence.
    assert (fi <> fl) by congruence.
    match goal with |- context [copy_from_user _ _ _ _ ?s] =>
      set (st3 := s);
      assert (get_buf st3 nd = Some pad) as Hb3
    end.
    { apply get_buf_Some. subst st3. simpl.
      rewrite lookup_insert_ne by done. by rewrite lookup_insert_eq. }
    destruct (copy_from_user_any st3 nd pad ppos ubuf len Hb3 Hp0 Hl0 ltac:(lia))
      as (st4 & Hc & Hnl4 & Hino4 & Hframe & Hb4).
    change (data fd') with (Some nd). rewrite Hc.
    cbv beta iota. unfold fail, ret.
    exists st4. split.
    { rewrite <- Hres. by destruct (negb _). }
    split.
    + exists i, fl, fd'. split.
      { apply get_inode_Some. rewrite Hframe by done. subst st3. simpl.
        by rewrite !lookup_insert_ne by done. }
      split; [done|]. split.
      { apply get_file_Some. rewrite Hframe by done. subst st3. simpl.
        by rewrite lookup_insert_eq. }
      split.
      { simpl. rewrite !length_app, length_take, length_drop. lia. }
      split; [simpl; lia|].
      simpl. exact Hb4.
    + intros l Hl. rewrite Hnl4 in Hl. subst st3. simpl in Hl.
      rewrite Hframe by lia. simpl.
      assert (nd <> l) by lia.
      assert (fl <> l) by (intros ->; rewrite Hh0fresh in Hf1; [done|lia]).
      rewrite !lookup_insert_ne by done.
      apply Hh0fresh. done.
  - (* the size already covers the write *)
    assert (ppos + len <= size fd) as Hle by lia.
    replace (Z.max (ppos + len) (size fd)) with (size fd) in * by lia.
    clear Hg.
    unfold bind at 1. unfold ret at 1. cbv beta iota.
    replace (Z.to_nat (ppos + len) - length c)%nat with 0%nat by lia.
    simpl repeat. rewrite app_nil_r.
    destruct (data fd) as [dl|] eqn:Ed.
    + destruct (copy_from_user_any st dl c ppos ubuf len Hd Hp0 Hl0 ltac:(lia))
        as (st4 & Hc & Hnl4 & Hino4 & Hframe & Hb4).
      unfold bind at 1. rewrite Hc.
      cbv beta iota. unfold fail, ret.
      exists st4. split.
      { rewrite <- Hres. by destruct (negb _). }
      apply get_buf_Some in Hd.
      split.
      * exists i, fl, fd. split.
        { apply get_inode_Some. rewrite Hframe; [by apply get_inode_Some|].
          intros ->. apply get_inode_Some in Hi. congruence. }
        split; [done|]. split.
        { apply get_file_Some. rewrite Hframe; [by apply get_file_Some|].
          intros ->. apply get_file_Some in Hf. congruence. }
        split.
        { rewrite !length_app, length_take, length_drop. lia. }
        split; [done|]. rewrite Ed. exact Hb4.
      * intros l Hl. rewrite Hnl4 in Hl. rewrite Hframe; [by apply Hfresh|].
        intros ->. rewrite Hfresh in Hd; done.
    + subst c. simpl in Hsz. assert (len = 0) as E0 by lia.
      assert (img = []) as Himg0 by (destruct img; [done|simpl in Himg; lia]).
      rewrite Himg0. exists st. split.
      { unfold copy_from_user. rewrite E0, Z.min_l by lia. simpl.
        unfold bind, ret. simpl.
        destruct (Z.leb_spec 0 (Z.of_nat (length ubuf))); [|lia].
        by rewrite Z.add_0_r. }
      split; [|done].
      exists i, fl, fd. rewrite Ed. simpl. rewrite take_nil, drop_nil. done.
Qed.

(** X2. A write that starts at or past the end of the file leaves the old
    bytes, then zero bytes up to the offset, then the written bytes; this
    holds for an empty [bytes] too, so a zero-length write past the end
    extends the file with zeros. *)
Theorem vtfs_write_past_end_zero_fills st fi c moved junk bytes ppos :
  file_at st fi c -> alloc_fresh st ->
  Z.of_nat (length c) <= ppos -> ppos + Z.of_nat (length bytes) < 2 ^ 63 ->
  exists st',
    vtfs_write (KOk moved junk) bytes fi (Z.of_nat (length bytes)) ppos st
    = (Ok (Z.of_nat (length bytes)), ppos + Z.of_nat (length bytes), st') /\
    file_at st' fi (c ++ repeat x00 (Z.to_nat ppos - length c) ++ bytes).
Proof.
  intros Hf Hfresh Hp0 Hp1.
  destruct (vtfs_write_content _ _ _ moved junk bytes ppos Hf Hfresh ltac:(lia) Hp1)
    as (st' & Hw & Hf' & _).
  exists st'. split; [exact Hw|].
  by rewrite <- content_after_write_past_end.
Qed.


Lemma vtfs_write_past_end_zero_fills_witness :
  exists st',
    vtfs_write (KOk true (λ _, x07)) [] Run.f_inode 0 4 Run.st_ab
    = (Ok 0, 4, st') /\
    file_at st' Run.f_inode [x41; x42; x00; x00].
Proof.
  exact (vtfs_write_past_end_zero_fills Run.st_ab Run.f_inode [x41; x42] true
           (λ _, x07) [] 4 st_ab_file st_ab_fresh ltac:(simpl; lia) ltac:(simpl; lia)).
Defined.

(** X3. When the caller's buffer is readable for fewer than [len] bytes the
    write returns [EFAULT] and leaves the position alone, but the file is not
    as before: it was grown first and now holds the readable bytes followed
    by zero bytes over the whole window. *)
Theorem vtfs_write_short_copy st fi c moved junk ubuf len ppos :
  file_at st fi c -> alloc_fresh st ->
  0 <= ppos -> ppos + len < 2 ^ 63 ->
  Z.of_nat (length ubuf) < len ->
  exists st',
    vtfs_write (KOk moved junk) ubuf fi len ppos st = (Error EFAULT, ppos, st') /\
    file_at st' fi
      (content_after_write c ppos
         (ubuf ++ repeat x00 (Z.to_nat len - length ubuf))).
Proof.
  intros Hf Hfresh Hp0 Hp1 Hshort.
  destruct (vtfs_write_any _ _ _ moved junk ubuf len ppos Hf Hfresh Hp0 ltac:(lia) Hp1)
    as (st' & Hw & Hf' & _).
  exists st'.
  destruct (Z.leb_spec len (Z.of_nat (length ubuf))); [lia|].
  split; [exact Hw|].
  unfold user_image in Hf'. by rewrite take_ge in Hf' by lia.
Qed.


Lemma vtfs_write_short_copy_witness :
  exists st',
    vtfs_write (KOk true (λ _, x07)) [x58] Run.f_inode 2 3 Run.st_ab
    = (Error EFAULT, 3, st') /\
    file_at st' Run.f_inode [x41; x42; x00; x58; x00].
Proof.
  exact (vtfs_write_short_copy Run.st_ab Run.f_inode [x41; x42] true
           (λ _, x07) [x58] 2 3 st_ab_file st_ab_fresh
           ltac:(lia) ltac:(lia) ltac:(simpl; lia)).
Defined.

(** X5. A read at an offset up to the size returns exactly the bytes
    [offset .. offset + min(len, size - offset)) of the file, advances the
    position by their number and leaves the state alone. *)
Theorem vtfs_read_returns_slice st fi c len ppos :
  file_at st fi c -> 0 <= ppos <= Z.of_nat (length c) -> 0 <= len < 2 ^ 64 ->
  exists out,
    vtfs_read true fi len ppos st = (Ok out, ppos + Z.of_nat (length out), st) /\
    out = take (Z.to_nat len) (drop (Z.to_nat ppos) c) /\
    Z.of_nat (length out) = Z.min len (Z.of_nat (length c) - ppos).
Proof.
  intros Hf Hp Hl. rewrite (vtfs_read_content _ _ _ _ _ Hf Hp Hl).
  eexists. split; [|split; [reflexivity|]].
  - do 2 f_equal. rewrite length_take, length_drop. lia.
  - rewrite length_take, length_drop. lia.
Qed.


Lemma vtfs_read_returns_slice_witness :
  exists out,
    vtfs_read true Run.f_inode 5 1 Run.st_ab
    = (Ok out, 1 + Z.of_nat (length out), Run.st_ab) /\
    out = [x42] /\ Z.of_nat (length out) = 1.
Proof.
  exact (vtfs_read_returns_slice Run.st_ab Run.f_inode [x41; x42] 5 1
           st_ab_file ltac:(simpl; lia) ltac:(lia)).
Defined.

(** X6. Two reads one after the other, the second from the position the
    first returned, yield together what one read of [len1 + len2] yields,
    and end at the same position. *)
Theorem vtfs_read_sequential st fi c len1 len2 ppos :
  file_at st fi c -> 0 <= ppos <= Z.of_nat (length c) ->
  0 <= len1 -> 0 <= len2 -> len1 + len2 < 2 ^ 64 ->
  exists o1 o2 p1 p2,
    vtfs_read true fi len1 ppos st = (Ok o1, p1, st) /\
    vtfs_read true fi len2 p1 st = (Ok o2, p2, st) /\
    vtfs_read true fi (len1 + len2) ppos st = (Ok (o1 ++ o2), p2, st).
Proof.
  intros Hf Hp H1 H2 H12.
  set (L := drop (Z.to_nat ppos) c).
  assert (Z.of_nat (length L) = Z.of_nat (length c) - ppos) as HL.
  { subst L. rewrite length_drop. lia. }
  set (p1 := ppos + Z.min len1 (Z.of_nat (length c) - ppos)).
  exists (take (Z.to_nat len1) L), (take (Z.to_nat len2) (drop (Z.to_nat p1) c)),
         p1, (p1 + Z.min len2 (Z.of_nat (length c) - p1)).
  split; [by apply vtfs_read_content; [|lia..]|].
  split; [by apply vtfs_read_content; [|subst p1; lia..]|].
  rewrite (vtfs_read_content _ _ _ (len1 + len2) ppos Hf) by lia.
  fold L.
  destruct (Z.le_ge_cases len1 (Z.of_nat (length c) - ppos)) as [Hle|Hge].
  - assert (p1 = ppos + len1) as -> by (subst p1; lia).
    replace (Z.to_nat (ppos + len1)) with (Z.to_nat ppos + Z.to_nat len1)%nat by lia.
    rewrite <- drop_drop. fold L.
    rewrite Z2Nat.inj_add by lia.
    rewrite <- (take_drop (Z.to_nat len1) L) at 1.
    rewrite take_app_add' by (rewrite length_take; lia).
    do 2 f_equal. lia.
  - assert (p1 = Z.of_nat (length c)) as -> by (subst p1; lia).
    rewrite Nat2Z.id, drop_all, take_nil, app_nil_r.
    rewrite !take_ge by lia. do 2 f_equal. lia.
Qed.

Lemma vtfs_read_sequential_witness :
  exists o1 o2 p1 p2,
    vtfs_read true Run.f_inode 1 0 Run.st_ab = (Ok o1, p1, Run.st_ab) /\
    vtfs_read true Run.f_inode 1 p1 Run.st_ab = (Ok o2, p2, Run.st_ab) /\
    vtfs_read true Run.f_inode (1 + 1) 0 Run.st_ab
    = (Ok (o1 ++ o2), p2, Run.st_ab).
Proof.
  exact (vtfs_read_sequential Run.st_ab Run.f_inode [x41; x42] 1 1 0
           st_ab_file ltac:(simpl; lia) ltac:(lia) ltac:(lia) ltac:(lia)).
Defined.


Lemma lookup_repeat_lt {A} (x : A) (n i : nat) :
  (i < n)%nat -> repeat x n !! i = Some x.
Proof.
  revert i. induction n as [|n IH]; intros [|i] H; simpl; try lia; try done.
  apply IH. lia.
Qed.

Lemma content_after_write_lookup (c bytes : list byte) (off i : nat) :
  content_after_write c (Z.of_nat off) bytes !! i
  = if decide (i < off)%nat then Some (default x00 (c !! i))
    else if decide (i < off + length bytes)%nat then bytes !! (i - off)%nat
    else c !! i.
Proof.
  unfold content_after_write. rewrite Nat2Z.id.
  set (k := (Z.to_nat (Z.of_nat off + Z.of_nat (length bytes)) - length c)%nat).
  set (pad := c ++ repeat x00 k).
  assert (off + length bytes <= length pad)%nat as Hpad.
  { subst pad k. rewrite length_app, repeat_length. lia. }
  assert (forall j, (j < length pad)%nat -> pad !! j = Some (default x00 (c !! j))) as Hin.
  { intros j Hj. subst pad. destruct (decide (j < length c)%nat) as [Hc|Hc].
    - rewrite lookup_app_l by done.
      destruct (lookup_lt_is_Some_2 c j Hc) as [x ->]. done.
    - rewrite lookup_app_r by lia. rewrite (lookup_ge_None_2 c j) by lia.
      rewrite length_app, repeat_length in Hj.
      rewrite lookup_repeat_lt by lia. done. }
  destruct (decide (i < off)%nat) as [H1|H1].
  - rewrite lookup_app_l by (rewrite length_take; lia).
    rewrite lookup_take_lt by lia. apply Hin. lia.
  - rewrite lookup_app_r by (rewrite length_take; lia).
    rewrite length_take. replace (off `min` length pad)%nat with off by lia.
    destruct (decide (i < off + length bytes)%nat) as [H2|H2].
    + rewrite lookup_app_l by lia. done.
    + rewrite lookup_app_r by lia. rewrite lookup_drop.
      replace (off + length bytes + (i - off - length bytes))%nat with i by lia.
      subst pad. destruct (decide (i < length c)%nat) as [Hc|Hc].
      * by rewrite lookup_app_l.
      * rewrite (lookup_ge_None_2 c i) by lia.
        apply lookup_ge_None_2. rewrite length_app, repeat_length. lia.
Qed.

Lemma content_after_write_app (c b1 b2 : list byte) (off : nat) :
  content_after_write (content_after_write c (Z.of_nat off) b1)
    (Z.of_nat (off + length b1)) b2
  = content_after_write c (Z.of_nat off) (b1 ++ b2).
Proof.
  apply list_eq. intros i.
  rewrite !content_after_write_lookup, length_app.
  repeat case_decide; try lia; try done.
  - destruct (lookup_lt_is_Some_2 b1 (i - off) ltac:(lia)) as [x Hx].
    rewrite lookup_app_l by lia. rewrite Hx. done.
  - rewrite lookup_app_r by lia. f_equal. lia.
Qed.

(** X4. Two writes one after the other, the second at the position the
    first returned, leave the file with the same bytes as one write of the
    concatenation, and end at the same position. *)
Theorem vtfs_write_sequential st fi c m1 j1 m2 j2 b1 b2 ppos :
  file_at st fi c -> alloc_fresh st ->
  0 <= ppos -> ppos + Z.of_nat (length (b1 ++ b2)) < 2 ^ 63 ->
  exists st1 st2 st12,
    vtfs_write (KOk m1 j1) b1 fi (Z.of_nat (length b1)) ppos st
    = (Ok (Z.of_nat (length b1)), ppos + Z.of_nat (length b1), st1) /\
    vtfs_write (KOk m2 j2) b2 fi (Z.of_nat (length b2))
      (ppos + Z.of_nat (length b1)) st1
    = (Ok (Z.of_nat (length b2)), ppos + Z.of_nat (length (b1 ++ b2)), st2) /\
    vtfs_write (KOk m1 j1) (b1 ++ b2) fi (Z.of_nat (length (b1 ++ b2))) ppos st
    = (Ok (Z.of_nat (length (b1 ++ b2))), ppos + Z.of_nat (length (b1 ++ b2)), st12) /\
    exists c', file_at st2 fi c' /\ file_at st12 fi c'.
Proof.
  intros Hf Hfresh Hp0 Hp1. rewrite length_app in *.
  destruct (vtfs_write_content _ _ _ m1 j1 b1 ppos Hf Hfresh Hp0 ltac:(lia))
    as (st1 & Hw1 & Hf1 & Hfresh1).
  destruct (vtfs_write_content _ _ _ m2 j2 b2 (ppos + Z.of_nat (length b1))
              Hf1 Hfresh1 ltac:(lia) ltac:(lia))
    as (st2 & Hw2 & Hf2 & _).
  destruct (vtfs_write_content _ _ _ m1 j1 (b1 ++ b2) ppos Hf Hfresh Hp0
              ltac:(rewrite length_app; lia))
    as (st12 & Hw12 & Hf12 & _).
  exists st1, st2, st12. split; [exact Hw1|].
  split; [rewrite Hw2; do 2 f_equal; lia|].
  split; [rewrite <- length_app; exact Hw12|].
  exists (content_after_write c ppos (b1 ++ b2)). split; [|exact Hf12].
  rewrite <- (Z2Nat.id ppos) in Hf2 |- * by lia.
  rewrite <- Nat2Z.inj_add in Hf2.
  by rewrite content_after_write_app in Hf2.
Qed.

Lemma vtfs_write_sequential_witness :
  exists st1 st2 st12,
    vtfs_write (KOk true (λ _, x07)) [x58] Run.f_inode 1 2 Run.st_ab
    = (Ok 1, 2 + 1, st1) /\
    vtfs_write (KOk false (λ _, x07)) [x59] Run.f_inode 1 (2 + 1) st1
    = (Ok 1, 2 + 2, st2) /\
    vtfs_write (KOk true (λ _, x07)) [x58; x59] Run.f_inode 2 2 Run.st_ab
    = (Ok 2, 2 + 2, st12) /\
    exists c', file_at st2 Run.f_inode c' /\ file_at st12 Run.f_inode c'.
Proof.
  exact (vtfs_write_sequential Run.st_ab Run.f_inode [x41; x42] true (λ _, x07)
           false (λ _, x07) [x58] [x59] 2 st_ab_file st_ab_fresh
           ltac:(lia) ltac:(simpl; lia)).
Defined.


(** X1. A successful write makes the size [max(old size, offset + len)] and
    leaves every old byte outside the window [offset, offset + len)
    unchanged. *)
Theorem vtfs_write_keeps_bytes_outside st fi c moved junk bytes ppos :
  file_at st fi c -> alloc_fresh st ->
  0 <= ppos -> ppos + Z.of_nat (length bytes) < 2 ^ 63 ->
  exists st' c',
    vtfs_write (KOk moved junk) bytes fi (Z.of_nat (length bytes)) ppos st
    = (Ok (Z.of_nat (length bytes)), ppos + Z.of_nat (length bytes), st') /\
    file_at st' fi c' /\
    Z.of_nat (length c')
    = Z.max (ppos + Z.of_nat (length bytes)) (Z.of_nat (length c)) /\
    forall i x, c !! i = Some x ->
      (Z.of_nat i < ppos \/ ppos + Z.of_nat (length bytes) <= Z.of_nat i) ->
      c' !! i = Some x.
Proof.
  intros Hf Hfresh Hp0 Hp1.
  destruct (vtfs_write_content _ _ _ moved junk bytes ppos Hf Hfresh Hp0 Hp1)
    as (st' & Hw & Hf' & _).
  exists st', (content_after_write c ppos bytes).
  split; [exact Hw|]. split; [exact Hf'|].
  split; [by apply length_content_after_write|].
  intros i x Hx Hout.
  rewrite <- (Z2Nat.id ppos) by lia. rewrite content_after_write_lookup.
  repeat case_decide; try lia; by rewrite ?Hx.
Qed.

Lemma vtfs_write_keeps_bytes_outside_witness :
  exists st' c',
    vtfs_write (KOk false (λ _, x07)) [x58; x59] Run.f_inode 2 1 Run.st_ab
    = (Ok 2, 1 + 2, st') /\
    file_at st' Run.f_inode c' /\
    Z.of_nat (length c') = Z.max (1 + 2) 2 /\
    forall i x, [x41; x42] !! i = Some x ->
      (Z.of_nat i < 1 \/ 1 + 2 <= Z.of_nat i) -> c' !! i = Some x.
Proof.
  exact (vtfs_write_keeps_bytes_outside Run.st_ab Run.f_inode [x41; x42] false
           (λ _, x07) [x58; x59] 1 st_ab_file st_ab_fresh
           ltac:(lia) ltac:(simpl; lia)).
Defined.


(** X7. For a non-empty file, a read of at least one byte at an offset
    strictly past the size does not return end-of-file: [available] wraps to
    [2^64 - (offset - size)] and the copy is attempted outside the block. *)
Theorem vtfs_read_past_size_faults uok st fi c len ppos :
  file_at st fi c -> c <> [] ->
  Z.of_nat (length c) < ppos < 2 ^ 63 -> 0 < len < 2 ^ 64 ->
  wrap64 (Z.of_nat (length c) - ppos)
  = 2 ^ 64 - (ppos - Z.of_nat (length c)) /\
  vtfs_read uok fi len ppos st = (Fault, ppos, st).
Proof.
  intros Hf Hc Hp Hl. split; [|by apply (vtfs_read_beyond_size uok st fi c)].
  unfold wrap64. rewrite <- (Z_mod_plus_full _ 1).
  rewrite Z.mod_small; lia.
Qed.

Lemma vtfs_read_past_size_faults_witness :
  wrap64 (2 - 7) = 2 ^ 64 - (7 - 2) /\
  vtfs_read true Run.f_inode 3 7 Run.st_ab = (Fault, 7, Run.st_ab).
Proof.
  apply (vtfs_read_past_size_faults true Run.st_ab Run.f_inode [x41; x42] 3 7
           st_ab_file); [discriminate | simpl; lia | lia].
Defined.

(** ** Directories *)

Ltac crunch :=
  repeat first [ done | progress simplify_eq/= | case_match | progress intros ].

Ltac heap_lookups_all :=
  repeat (first [ rewrite lookup_insert_eq
                | rewrite lookup_delete_eq
                | rewrite lookup_insert_ne by (lia || done)
                | rewrite lookup_delete_ne by (lia || done)
                | rewrite lookup_fmap ]; simpl).

Lemma names_of_frame st st' l :
  (forall e, e ∈ l -> get_file st' e = get_file st e) ->
  names_of st' l = names_of st l.
Proof.
  induction l as [|e l IH]; intros H; simpl; [done|].
  rewrite (H e) by set_solver.
  rewrite IH by (intros e' He'; apply H; set_solver). done.
Qed.

Lemma names_of_live st l ns e :
  names_of st l = Some ns -> e ∈ l -> exists f, heap st !! e = Some (OFile f).
Proof.
  revert ns. induction l as [|x l IH]; intros ns H He; [set_solver|].
  simpl in H. destruct (get_file st x) as [f|] eqn:Ef; [|done].
  destruct (name f); [|done].
  destruct (names_of st l) as [ns'|]; [|done].
  apply elem_of_cons in He as [->|He].
  - exists f. by apply get_file_Some.
  - by apply (IH ns').
Qed.

Lemma find_entry_miss st nm l ns :
  names_of st l = Some ns -> nm ∉ ns -> find_entry st nm l = Ok None.
Proof.
  revert ns. induction l as [|e l IH]; intros ns H Hn; simpl in *; [done|].
  destruct (get_file st e) as [f|]; [|done].
  destruct (name f) as [n|]; [|done].
  destruct (names_of st l) as [ns'|]; [|done].
  injection H as <-.
  destruct (String.eqb_spec n nm) as [->|Hne]; [set_solver|].
  apply (IH ns'); [done|set_solver].
Qed.

Lemma find_entry_hit st nm l ns :
  names_of st l = Some ns -> nm ∈ ns ->
  exists l1 e l2 f ns1 ns2,
    l = l1 ++ e :: l2 /\ find_entry st nm l = Ok (Some (e, f)) /\
    get_file st e = Some f /\ name f = Some nm /\
    names_of st l1 = Some ns1 /\ names_of st l2 = Some ns2 /\
    ns = ns1 ++ nm :: ns2 /\ nm ∉ ns1.
Proof.
  revert ns. induction l as [|e l IH]; intros ns H Hn; simpl in *.
  { injection H as <-. by apply elem_of_nil in Hn. }
  destruct (get_file st e) as [f|] eqn:Ef; [|done].
  destruct (name f) as [n|] eqn:En; [|done].
  destruct (names_of st l) as [ns'|] eqn:El; [|done].
  injection H as <-.
  destruct (String.eqb_spec n nm) as [->|Hne].
  - exists [], e, l, f, [], ns'. simpl. rewrite Ef, En, El.
    repeat split; try done. apply not_elem_of_nil.
  - assert (nm ∈ ns') as Hin.
    { apply elem_of_cons in Hn as [Heq|Hin]; [congruence|done]. }
    destruct (IH ns' eq_refl Hin)
      as (l1 & e' & l2 & f' & ns1 & ns2 & Hl & Hfe & Hf' & Hn' & H1 & H2
          & Hns & Hnot).
    exists (e :: l1), e', l2, f', (n :: ns1), ns2. simpl.
    rewrite Ef, En, H1, Hns. subst l. repeat split; try done.
    apply not_elem_of_cons. split; [congruence|done].
Qed.

Lemma lookup_absent st p ns cd :
  dir_at st p ns -> d_name cd ∉ ns ->
  vtfs_lookup p cd st = (Ok cd, st).
Proof.
  intros (i & dl & d & Hi & Hp & Hd & _ & _ & Hn) Hmiss.
  unfold vtfs_lookup. unfold_ops. rewrite Hi, Hp, Hd.
  rewrite (find_entry_miss _ _ _ _ Hn Hmiss). reflexivity.
Qed.

(** The concrete runs as directories and files. *)
Lemma dir_at_intro st di ns i dl d :
  get_inode st di = Some i -> i_private i = Some dl ->
  get_dir st dl = Some d -> is_Some (self d) -> NoDup (children d) ->
  names_of st (children d) = Some ns -> dir_at st di ns.
Proof. intros. by exists i, dl, d. Qed.

Ltac concrete_dir :=
  eapply dir_at_intro;
  [ reflexivity | reflexivity | reflexivity
  | eexists; reflexivity
  | apply (bool_decide_unpack _); vm_compute; exact I
  | vm_compute; reflexivity ].

Lemma st_f_dir : dir_at Run.st_f Run.root ["f"%string].
Proof. concrete_dir. Defined.

Lemma st_ab_dir : dir_at Run.st_ab Run.root ["f"%string].
Proof. concrete_dir. Defined.

Lemma st_a_b_c_dir : dir_at Run.st_a_b_c Run.root ["b"; "a"; "c"]%string.
Proof. concrete_dir. Defined.

Lemma st_d_x_root : dir_at Run.st_d_x Run.root ["d"%string].
Proof. concrete_dir. Defined.

Lemma st_d_x_dir : dir_at Run.st_d_x Run.d_inode ["x"%string].
Proof. concrete_dir. Defined.

Lemma st_ab_linkable : linkable Run.st_ab Run.f_inode.
Proof.
  exists (mk_inode 1 Run.reg 1 (Some 4%positive) (Some vtfs_file_ops)), 4%positive,
         (mk_file (Some "f") 1 Run.reg (Some Run.f_inode) 2 (Some 6%positive)).
  vm_compute. repeat split; reflexivity.
Defined.

(** X15. Looking up a name the directory does not have returns the dentry
    as it was given (no inode bound) and changes nothing. *)
Theorem vtfs_lookup_miss st p ns cd :
  dir_at st p ns -> d_name cd ∉ ns ->
  vtfs_lookup p cd st = (Ok cd, st).
Proof. apply lookup_absent. Qed.

Lemma vtfs_lookup_miss_witness :
  vtfs_lookup Run.root (Run.neg "g") Run.st_f = (Ok (Run.neg "g"), Run.st_f).
Proof.
  apply (vtfs_lookup_miss Run.st_f Run.root ["f"%string] (Run.neg "g") st_f_dir).
  apply (bool_decide_unpack _). vm_compute. exact I.
Defined.


(** X16. [vtfs_lookup] changes none of the module's records, inodes or
    blocks, whatever it is given; its only effect is the binding it
    returns. *)
Theorem vtfs_lookup_frame p cd st : snd (vtfs_lookup p cd st) = st.
Proof.
  unfold vtfs_lookup. unfold_ops.
  repeat (case_match; simplify_eq/=; try done).
Qed.


(** X9. [vtfs_create] of a name the directory already has returns [EEXIST]
    and changes nothing, whichever allocations would have succeeded. *)
Theorem vtfs_create_existing_name o st p ns cd md :
  dir_at st p ns -> S_ISDIR md = false -> d_name cd ∈ ns ->
  vtfs_create o p cd md st = (Error EEXIST, st).
Proof.
  intros (i & dl & d & Hi & Hp & Hd & _ & _ & Hn) Hm Hin.
  destruct (find_entry_hit _ _ _ _ Hn Hin) as (l1 & e & l2 & f & ns1 & ns2 & _ & Hfe & _).
  by apply (vtfs_create_eexist o p cd md st i dl d (e, f)).
Qed.

Lemma vtfs_create_existing_name_witness :
  vtfs_create all_ok Run.root (Run.neg "f") Run.reg Run.st_f
  = (Error EEXIST, Run.st_f).
Proof.
  apply (vtfs_create_existing_name all_ok Run.st_f Run.root ["f"%string]
           (Run.neg "f") Run.reg st_f_dir); [reflexivity|].
  apply (bool_decide_unpack _). vm_compute. exact I.
Defined.


(** X17. [vtfs_unlink] of a name the directory does not have returns
    [ENOENT] and changes nothing. *)
Theorem vtfs_unlink_missing_name st p ns cd :
  dir_at st p ns -> d_name cd ∉ ns ->
  vtfs_unlink (Some p) (Some cd) st = (Error ENOENT, st).
Proof.
  intros (i & dl & d & Hi & Hp & Hd & _ & _ & Hn) Hmiss.
  unfold vtfs_unlink. unfold_ops. rewrite Hi, Hp, Hd.
  rewrite (find_entry_miss _ _ _ _ Hn Hmiss). reflexivity.
Qed.

Lemma vtfs_unlink_missing_name_witness :
  vtfs_unlink (Some Run.root) (Some (Run.neg "g")) Run.st_f
  = (Error ENOENT, Run.st_f).
Proof.
  apply (vtfs_unlink_missing_name Run.st_f Run.root ["f"%string] (Run.neg "g")
           st_f_dir).
  apply (bool_decide_unpack _). vm_compute. exact I.
Defined.


Lemma children_below st l ns e :
  alloc_fresh st -> names_of st l = Some ns -> e ∈ l ->
  (e < next_loc st)%positive.
Proof.
  intros Hf Hn He. destruct (names_of_live _ _ _ _ Hn He) as [f Hl].
  by apply (fresh_lt _ _ _ Hf Hl).
Qed.

(** X8. [vtfs_create] of a new name in a directory, with its allocations
    succeeding, binds the dentry to a fresh inode with link count 1 that is
    an empty file, puts the name first in the directory, and a lookup of the
    name afterwards finds that inode. *)
Theorem vtfs_create_then_lookup o st p ns cd md :
  dir_at st p ns -> alloc_fresh st ->
  S_ISDIR md = false -> d_name cd ∉ ns ->
  file_ok o = true -> name_ok o = true -> inode_ok o = true ->
  exists il st',
    vtfs_create o p cd md st = (Ok (mk_dentry (d_name cd) (Some il)), st') /\
    get_inode st il = None /\
    (i_nlink <$> get_inode st' il) = Some 1 /\
    file_at st' il [] /\
    dir_at st' p (d_name cd :: ns) /\
    alloc_fresh st' /\
    vtfs_lookup p (mk_dentry (d_name cd) None) st'
    = (Ok (mk_dentry (d_name cd) (Some il)), st').
Proof.
  intros (i & dl & d & Hi & Hp & Hd & Hself & Hnd & Hn) Hfresh Hm Hmiss Ho1 Ho2 Ho3.
  exists (Pos.succ (next_loc st)).
  unfold vtfs_create. rewrite Hm.
  unfold_ops. rewrite Hi, Hp, Hd, (find_entry_miss _ _ _ _ Hn Hmiss).
  rewrite Ho1, Ho2, Ho3. simpl negb. cbv iota.
  apply get_dir_Some in Hd. pose proof (fresh_lt _ _ _ Hfresh Hd) as Hlt.
  apply get_inode_Some in Hi. pose proof (fresh_lt _ _ _ Hfresh Hi) as Hlti.
  assert (p <> dl) as Hpd by congruence.
  assert (dl <> p) as Hdp by congruence.
  assert (forall e, e ∈ children d -> (e < next_loc st)%positive /\ e <> dl) as Hch.
  { intros e He. split; [by eapply children_below|].
    destruct (names_of_live _ _ _ _ Hn He) as [f Hf]. congruence. }
  unfold get_inode, get_dir. simpl.
  heap_lookups. rewrite Hd. simpl.
  eexists. split; [reflexivity|].
  split; [by rewrite (Hfresh (Pos.succ (next_loc st))) by lia|].
  split; [unfold get_inode; simpl; heap_lookups; done|].
  split.
  { eexists _, (next_loc st), _. unfold get_inode, get_file. simpl. heap_lookups.
    split; [reflexivity|]. simpl. split; [reflexivity|]. heap_lookups.
    split; [reflexivity|]. simpl. repeat split; try done; lia. }
  split.
  { exists i, dl. eexists. unfold get_inode, get_dir. simpl. heap_lookups.
    rewrite Hi. repeat split; try done.
    - simpl. apply NoDup_cons. split; [|done].
      intros He. apply Hch in He. lia.
    - simpl. unfold get_file at 1. simpl. heap_lookups.
      rewrite (names_of_frame st); [by rewrite Hn|].
      intros e He. destruct (Hch e He). unfold get_file. simpl. by heap_lookups. }
  split.
  { intros l Hl. simpl in *. heap_lookups.
    assert (dl <> l) by lia. heap_lookups. apply Hfresh. lia. }
  unfold vtfs_lookup. unfold_ops.
  unfold get_inode, get_dir. simpl. heap_lookups. rewrite Hi, Hp. simpl.
  heap_lookups. unfold get_file. simpl. heap_lookups.
  rewrite String.eqb_refl. reflexivity.
Qed.

Lemma vtfs_create_then_lookup_witness :
  exists il st',
    vtfs_create all_ok Run.root (Run.neg "g") Run.reg Run.st_f
    = (Ok (mk_dentry "g" (Some il)), st') /\
    get_inode Run.st_f il = None /\
    (i_nlink <$> get_inode st' il) = Some 1 /\
    file_at st' il [] /\
    dir_at st' Run.root ["g"; "f"]%string /\
    alloc_fresh st' /\
    vtfs_lookup Run.root (mk_dentry "g" None) st'
    = (Ok (mk_dentry "g" (Some il)), st').
Proof.
  apply (vtfs_create_then_lookup all_ok Run.st_f Run.root ["f"%string]
           (Run.neg "g") Run.reg st_f_dir st_f_fresh);
    try reflexivity.
  apply (bool_decide_unpack _). vm_compute. exact I.
Defined.


Lemma names_of_snoc st l ns e f n :
  names_of st l = Some ns -> get_file st e = Some f -> name f = Some n ->
  names_of st (l ++ [e]) = Some (ns ++ [n]).
Proof.
  revert ns. induction l as [|x l IH]; intros ns H He Hn; simpl in *.
  - injection H as <-. by rewrite He, Hn.
  - destruct (get_file st x) as [fx|]; [|done].
    destruct (name fx); [|done].
    destruct (names_of st l) as [ns'|]; [|done].
    injection H as <-. by rewrite (IH ns' eq_refl He Hn).
Qed.

Lemma find_entry_snoc_hit st nm l ns e f :
  names_of st l = Some ns -> nm ∉ ns ->
  get_file st e = Some f -> name f = Some nm ->
  find_entry st nm (l ++ [e]) = Ok (Some (e, f)).
Proof.
  revert ns. induction l as [|x l IH]; intros ns H Hmiss He Hn; simpl in *.
  - by rewrite He, Hn, String.eqb_refl.
  - destruct (get_file st x) as [fx|]; [|done].
    destruct (name fx) as [n|]; [|done].
    destruct (names_of st l) as [ns'|]; [|done].
    injection H as <-.
    destruct (String.eqb_spec n nm) as [->|Hne].
    + exfalso. apply Hmiss. left.
    + apply (IH ns' eq_refl); [|done..].
      intros Hin. apply Hmiss. by right.
Qed.

(** X10. [vtfs_create] does not check [kstrdup]: when it fails the call
    still returns success, the new entry has a [NULL] name at the head of the
    list, and every later lookup in that directory hands [NULL] to
    [strcmp]. *)
Theorem vtfs_create_unchecked_kstrdup o st p ns cd md :
  dir_at st p ns -> alloc_fresh st ->
  S_ISDIR md = false -> d_name cd ∉ ns ->
  file_ok o = true -> name_ok o = false -> inode_ok o = true ->
  exists il st',
    vtfs_create o p cd md st = (Ok (mk_dentry (d_name cd) (Some il)), st') /\
    forall cd', vtfs_lookup p cd' st' = (Fault, st').
Proof.
  intros (i & dl & d & Hi & Hp & Hd & Hself & Hnd & Hn) Hfresh Hm Hmiss Ho1 Ho2 Ho3.
  exists (Pos.succ (next_loc st)).
  unfold vtfs_create. rewrite Hm.
  unfold_ops. rewrite Hi, Hp, Hd, (find_entry_miss _ _ _ _ Hn Hmiss).
  rewrite Ho1, Ho2, Ho3. simpl negb. cbv iota.
  apply get_dir_Some in Hd. pose proof (fresh_lt _ _ _ Hfresh Hd) as Hlt.
  apply get_inode_Some in Hi. pose proof (fresh_lt _ _ _ Hfresh Hi) as Hlti.
  assert (p <> dl) as Hpd by congruence.
  assert (dl <> p) as Hdp by congruence.
  unfold get_inode, get_dir. simpl.
  heap_lookups. rewrite Hd. simpl.
  eexists. split; [reflexivity|].
  intros cd'. unfold vtfs_lookup. unfold_ops.
  unfold get_inode, get_dir. simpl. heap_lookups. rewrite Hi, Hp. simpl.
  heap_lookups. unfold get_file. simpl. heap_lookups. reflexivity.
Qed.

Lemma vtfs_create_unchecked_kstrdup_witness :
  exists il st',
    vtfs_create (mk_allocs true false true true) Run.root (Run.neg "g")
      Run.reg Run.st_f
    = (Ok (mk_dentry "g" (Some il)), st') /\
    forall cd', vtfs_lookup Run.root cd' st' = (Fault, st').
Proof.
  apply (vtfs_create_unchecked_kstrdup (mk_allocs true false true true)
           Run.st_f Run.root ["f"%string] (Run.neg "g") Run.reg
           st_f_dir st_f_fresh);
    try reflexivity.
  apply (bool_decide_unpack _). vm_compute. exact I.
Defined.


(** X11. [vtfs_mkdir] with its allocations succeeding binds the dentry to a
    fresh inode with link count 1 and mode [S_IFDIR | mode] that is an empty
    directory, and puts the name last in the parent, whether or not the
    parent already had that name. *)
Theorem vtfs_mkdir_new_directory o st p ns cd md :
  dir_at st p ns -> alloc_fresh st ->
  file_ok o = true -> name_ok o = true -> dir_ok o = true -> inode_ok o = true ->
  exists il st',
    vtfs_mkdir o (Some p) (Some cd) md st
    = (Ok (mk_dentry (d_name cd) (Some il)), st') /\
    get_inode st il = None /\
    (i_nlink <$> get_inode st' il) = Some 1 /\
    (i_mode <$> get_inode st' il) = Some (Z.lor S_IFDIR md) /\
    dir_at st' il [] /\
    dir_at st' p (ns ++ [d_name cd]) /\
    alloc_fresh st'.
Proof.
  intros (i & dl & d & Hi & Hp & Hd & Hself & Hnd & Hn) Hfresh Ho1 Ho2 Ho3 Ho4.
  exists (Pos.succ (Pos.succ (next_loc st))).
  unfold vtfs_mkdir. unfold_ops. rewrite Hi, Hp, Ho1, Ho2, Ho3, Ho4.
  simpl negb. cbv iota.
  apply get_dir_Some in Hd. pose proof (fresh_lt _ _ _ Hfresh Hd) as Hlt.
  apply get_inode_Some in Hi. pose proof (fresh_lt _ _ _ Hfresh Hi) as Hlti.
  assert (p <> dl) as Hpd by congruence.
  assert (dl <> p) as Hdp by congruence.
  assert (forall e, e ∈ children d -> (e < next_loc st)%positive /\ e <> dl) as Hch.
  { intros e He. split; [by eapply children_below|].
    destruct (names_of_live _ _ _ _ Hn He) as [f Hf]. congruence. }
  unfold get_inode, get_dir. simpl.
  heap_lookups. rewrite Hd. simpl.
  eexists. split; [reflexivity|].
  split; [by rewrite (Hfresh (Pos.succ (Pos.succ (next_loc st)))) by lia|].
  split; [unfold get_inode; simpl; heap_lookups; done|].
  split; [unfold get_inode; simpl; heap_lookups; done|].
  split.
  { eexists _, (Pos.succ (next_loc st)), _. unfold get_inode, get_dir. simpl. heap_lookups.
    split; [reflexivity|]. simpl. split; [reflexivity|]. heap_lookups.
    split; [reflexivity|]. simpl. split; [by eexists|].
    split; [apply NoDup_nil_2|done]. }
  split.
  { exists i, dl. eexists. unfold get_inode, get_dir. simpl. heap_lookups.
    rewrite Hi. repeat split; try done.
    - simpl. apply NoDup_app. split; [done|]. split; [|apply NoDup_singleton].
      intros e He He'. apply Hch in He. apply list_elem_of_singleton in He'. lia.
    - simpl. eapply names_of_snoc.
      + rewrite (names_of_frame st); [exact Hn|].
        intros e He. destruct (Hch e He). unfold get_file. simpl. by heap_lookups.
      + unfold get_file. simpl. heap_lookups. reflexivity.
      + reflexivity. }
  intros l Hl. simpl in *. heap_lookups.
  assert (dl <> l) by lia. heap_lookups. apply Hfresh. lia.
Qed.

Lemma vtfs_mkdir_new_directory_witness :
  exists il st',
    vtfs_mkdir all_ok (Some Run.root) (Some (Run.neg "f")) 493 Run.st_f
    = (Ok (mk_dentry "f" (Some il)), st') /\
    get_inode Run.st_f il = None /\
    (i_nlink <$> get_inode st' il) = Some 1 /\
    (i_mode <$> get_inode st' il) = Some (Z.lor S_IFDIR 493) /\
    dir_at st' il [] /\
    dir_at st' Run.root (["f"%string] ++ ["f"%string]) /\
    alloc_fresh st'.
Proof.
  apply (vtfs_mkdir_new_directory all_ok Run.st_f Run.root ["f"%string]
           (Run.neg "f") 493 st_f_dir st_f_fresh);
    reflexivity.
Defined.


(** X13. [vtfs_link] of a regular file under a new name binds the new
    dentry to the same inode, raises its link count by one, leaves the file's
    bytes as they were and puts the name last in the directory; a lookup of
    the new name finds the inode. *)
Theorem vtfs_link_second_name o st p ns fi c od nd :
  dir_at st p ns -> file_at st fi c -> linkable st fi -> alloc_fresh st ->
  d_inode od = Some fi -> d_name nd ∉ ns ->
  file_ok o = true -> name_ok o = true ->
  exists st' n,
    vtfs_link o od p nd st = (Ok (mk_dentry (d_name nd) (Some fi)), st') /\
    (i_nlink <$> get_inode st fi) = Some n /\
    (i_nlink <$> get_inode st' fi) = Some (wrap32 (n + 1)) /\
    file_at st' fi c /\
    dir_at st' p (ns ++ [d_name nd]) /\
    alloc_fresh st' /\
    vtfs_lookup p (mk_dentry (d_name nd) None) st'
    = (Ok (mk_dentry (d_name nd) (Some fi)), st').
Proof.
  intros (i & dl & d & Hi & Hp & Hd & Hself & Hnd & Hn)
         (fi_i & fl & fd & Hfi & Hfp & Hff & Hsz & Hlt63 & Hdata)
         (fi_i' & fl' & fd' & Hfi' & Hfp' & Hff' & Hmode)
         Hfresh Hod Hmiss Ho1 Ho2.
  rewrite Hfi in Hfi'. injection Hfi' as <-.
  rewrite Hfp in Hfp'. injection Hfp' as <-.
  rewrite Hff in Hff'. injection Hff' as <-.
  unfold vtfs_link. unfold_ops.
  rewrite Hod, Hfi, Hi, Hfp, Hff, Hmode, Hp, Hd.
  rewrite (find_entry_miss _ _ _ _ Hn Hmiss), Ho1, Ho2.
  simpl negb. cbv iota.
  apply get_dir_Some in Hd. pose proof (fresh_lt _ _ _ Hfresh Hd) as Hlt.
  apply get_inode_Some in Hi. pose proof (fresh_lt _ _ _ Hfresh Hi) as Hlti.
  apply get_inode_Some in Hfi. pose proof (fresh_lt _ _ _ Hfresh Hfi) as Hltf.
  apply get_file_Some in Hff. pose proof (fresh_lt _ _ _ Hfresh Hff) as Hltl.
  assert (p <> dl) as Hpd by congruence.
  assert (dl <> p) as Hdp by congruence.
  assert (fi <> dl) as Hfd by congruence.
  assert (dl <> fi) as Hdf by congruence.
  assert (fi <> fl) as Hfl by congruence.
  assert (fl <> fi) as Hlf by congruence.
  assert (fl <> dl) as Hld by congruence.
  assert (dl <> fl) as Hdl by congruence.
  assert (fi <> p) as Hfip.
  { intros ->. rewrite Hi in Hfi. injection Hfi as <-. congruence. }
  assert (forall e, e ∈ children d ->
            (e < next_loc st)%positive /\ e <> dl /\ e <> fi) as Hch.
  { intros e He. split; [by eapply children_below|].
    destruct (names_of_live _ _ _ _ Hn He) as [f Hf]. split; congruence. }
  unfold get_inode, get_dir. simpl.
  heap_lookups. rewrite Hd. simpl. heap_lookups. rewrite Hfi. simpl.
  eexists _, (i_nlink fi_i). split; [reflexivity|].
  split; [done|].
  split; [unfold get_inode; simpl; heap_lookups; done|].
  split.
  { eexists _, fl, fd. unfold get_inode, get_file. simpl. heap_lookups.
    split; [reflexivity|]. simpl. split; [done|]. rewrite Hff.
    split; [reflexivity|]. split; [done|]. split; [done|].
    destruct (data fd) as [bl|]; [|done].
    apply get_buf_Some in Hdata. pose proof (fresh_lt _ _ _ Hfresh Hdata).
    assert (fi <> bl) by congruence. assert (dl <> bl) by congruence.
    unfold get_buf. simpl. heap_lookups. by rewrite Hdata. }
  split.
  { exists i, dl. eexists. unfold get_inode, get_dir. simpl. heap_lookups.
    rewrite Hi. repeat split; try done.
    - simpl. apply NoDup_app. split; [done|]. split; [|apply NoDup_singleton].
      intros e He He'. apply Hch in He. apply list_elem_of_singleton in He'. lia.
    - simpl. eapply names_of_snoc.
      + rewrite (names_of_frame st); [exact Hn|].
        intros e He. destruct (Hch e He) as (? & ? & ?).
        unfold get_file. simpl. by heap_lookups.
      + unfold get_file. simpl. heap_lookups. reflexivity.
      + reflexivity. }
  split.
  { intros l Hl. simpl in *.
    assert (dl <> l) by lia. assert (fi <> l) by lia. heap_lookups.
    apply Hfresh. lia. }
  unfold vtfs_lookup. unfold_ops.
  unfold get_inode, get_dir. simpl. heap_lookups. rewrite Hi, Hp. simpl.
  heap_lookups.
  erewrite find_entry_snoc_hit; cycle 1.
  - rewrite (names_of_frame st); [exact Hn|].
    intros e He. destruct (Hch e He) as (? & ? & ?).
    unfold get_file. simpl. by heap_lookups.
  - exact Hmiss.
  - unfold get_file. simpl. heap_lookups. reflexivity.
  - reflexivity.
  - reflexivity.
Qed.

Lemma vtfs_link_second_name_witness :
  exists st' n,
    vtfs_link all_ok (Run.pos "f" Run.f_inode) Run.root (Run.neg "g") Run.st_ab
    = (Ok (mk_dentry "g" (Some Run.f_inode)), st') /\
    (i_nlink <$> get_inode Run.st_ab Run.f_inode) = Some n /\
    (i_nlink <$> get_inode st' Run.f_inode) = Some (wrap32 (n + 1)) /\
    file_at st' Run.f_inode [x41; x42] /\
    dir_at st' Run.root (["f"%string] ++ ["g"%string]) /\
    alloc_fresh st' /\
    vtfs_lookup Run.root (mk_dentry "g" None) st'
    = (Ok (mk_dentry "g" (Some Run.f_inode)), st').
Proof.
  apply (vtfs_link_second_name all_ok Run.st_ab Run.root ["f"%string]
           Run.f_inode [x41; x42] (Run.pos "f" Run.f_inode) (Run.neg "g")
           st_ab_dir st_ab_file st_ab_linkable st_ab_fresh);
    try reflexivity.
  apply (bool_decide_unpack _). vm_compute. exact I.
Defined.


(** X14. [vtfs_link] under a name the directory already has returns
    [EEXIST] and changes nothing. *)
Theorem vtfs_link_existing_name o st p ns fi od nd :
  dir_at st p ns -> linkable st fi ->
  d_inode od = Some fi -> d_name nd ∈ ns ->
  vtfs_link o od p nd st = (Error EEXIST, st).
Proof.
  intros (i & dl & d & Hi & Hp & Hd & _ & _ & Hn)
         (fi_i & fl & fd & Hfi & Hfp & Hff & Hmode) Hod Hin.
  destruct (find_entry_hit _ _ _ _ Hn Hin)
    as (l1 & e & l2 & f & ns1 & ns2 & _ & Hfe & _).
  by apply (vtfs_link_eexist o od p nd st fi fi_i fl fd i dl d (e, f)).
Qed.

Lemma vtfs_link_existing_name_witness :
  vtfs_link all_ok (Run.pos "f" Run.f_inode) Run.root (Run.neg "f") Run.st_ab
  = (Error EEXIST, Run.st_ab).
Proof.
  apply (vtfs_link_existing_name all_ok Run.st_ab Run.root ["f"%string]
           Run.f_inode (Run.pos "f" Run.f_inode) (Run.neg "f")
           st_ab_dir st_ab_linkable); [reflexivity|].
  apply (bool_decide_unpack _). vm_compute. exact I.
Defined.


(** X21. Whenever [vtfs_create], [vtfs_link], [vtfs_unlink] or [vtfs_rmdir]
    returns an error code, the module's records, inodes and blocks are
    exactly as before the call. *)
Theorem namespace_errors_change_nothing :
  (forall o p cd md st e st',
      vtfs_create o p cd md st = (Error e, st') -> st' = st) /\
  (forall o od p nd st e st',
      vtfs_link o od p nd st = (Error e, st') -> st' = st) /\
  (forall p cd st e st',
      vtfs_unlink p cd st = (Error e, st') -> st' = st) /\
  (forall p cd st e st',
      vtfs_rmdir p cd st = (Error e, st') -> st' = st).
Proof.
  repeat split.
  - intros o p cd md st e st' H. revert H. unfold vtfs_create. unfold_ops.
    crunch.
  - intros o od p nd st e st' H. revert H. unfold vtfs_link. unfold_ops.
    crunch.
  - intros p cd st e st' H. revert H. unfold vtfs_unlink, list_del. unfold_ops.
    crunch.
  - intros p cd st e st' H. revert H. unfold vtfs_rmdir, list_del. unfold_ops.
    crunch.
Qed.

Lemma namespace_errors_change_nothing_witness :
  snd (vtfs_create all_ok Run.root (Run.neg "f") Run.reg Run.st_f) = Run.st_f.
Proof.
  apply (proj1 namespace_errors_change_nothing all_ok Run.root (Run.neg "f")
           Run.reg Run.st_f EEXIST).
  vm_compute. reflexivity.
Defined.


Lemma filter_ne_id (e : loc) (l : list loc) :
  e ∉ l -> filter (λ x, x ≠ e) l = l.
Proof.
  induction l as [|x l IH]; intros H; [done|].
  rewrite filter_cons_True by set_solver. f_equal. apply IH. set_solver.
Qed.

Lemma get_file_unlink_node e (o : option obj) :
  match unlink_node e <$> o with Some (OFile f) => Some f | _ => None end
  = match o with Some (OFile f) => Some f | _ => None end.
Proof. by destruct o as [[]|]. Qed.




(** X25. [vtfs_fill_super] with its allocations and [d_make_root]
    succeeding returns an inode numbered 100 with link count 1 that is an
    empty directory, and leaves every object that existed before
    untouched. *)
Theorem vtfs_fill_super_empty_root o st :
  alloc_fresh st ->
  file_ok o = true -> dir_ok o = true -> inode_ok o = true ->
  exists il st',
    vtfs_fill_super o true st = (Ok il, st') /\
    dir_at st' il [] /\
    (i_ino <$> get_inode st' il) = Some 100 /\
    (i_nlink <$> get_inode st' il) = Some 1 /\
    alloc_fresh st' /\
    (forall l x, heap st !! l = Some x -> heap st' !! l = Some x).
Proof.
  intros Hfresh Ho1 Ho2 Ho3.
  exists (Pos.succ (Pos.succ (next_loc st))).
  unfold vtfs_fill_super. unfold_ops. rewrite Ho1, Ho2, Ho3. simpl.
  unfold get_inode. simpl. heap_lookups_all.
  eexists. split; [reflexivity|].
  split.
  { eexists _, (next_loc st), _. unfold get_inode, get_dir. simpl. heap_lookups_all.
    split; [reflexivity|]. simpl. split; [reflexivity|]. heap_lookups_all.
    split; [reflexivity|]. simpl. split; [by eexists|].
    split; [apply NoDup_nil_2|done]. }
  split; [unfold get_inode; simpl; heap_lookups_all; done|].
  split; [unfold get_inode; simpl; heap_lookups_all; done|].
  split.
  { intros l Hl. simpl in *. heap_lookups_all. apply Hfresh. lia. }
  intros l x Hl. pose proof (fresh_lt _ _ _ Hfresh Hl). simpl. by heap_lookups_all.
Qed.

Lemma vtfs_fill_super_empty_root_witness :
  exists il st',
    vtfs_fill_super all_ok true Run.st_f = (Ok il, st') /\
    dir_at st' il [] /\
    (i_ino <$> get_inode st' il) = Some 100 /\
    (i_nlink <$> get_inode st' il) = Some 1 /\
    alloc_fresh st' /\
    (forall l x, heap Run.st_f !! l = Some x -> heap st' !! l = Some x).
Proof.
  apply (vtfs_fill_super_empty_root all_ok Run.st_f st_f_fresh); reflexivity.
Defined.


(** X18. Creating a new name and unlinking it again succeeds and leaves the
    directory with the names it had, in the same order; the inode that was
    created is left with link count 0 and a lookup of the name finds
    nothing. *)
Theorem vtfs_create_unlink_roundtrip o st p ns cd md :
  dir_at st p ns -> alloc_fresh st ->
  S_ISDIR md = false -> d_name cd ∉ ns ->
  file_ok o = true -> name_ok o = true -> inode_ok o = true ->
  exists de st1 st2,
    vtfs_create o p cd md st = (Ok de, st1) /\
    vtfs_unlink (Some p) (Some de) st1 = (Ok tt, st2) /\
    dir_at st2 p ns /\
    (i_nlink <$> (d_inode de ≫= get_inode st2)) = Some 0 /\
    vtfs_lookup p cd st2 = (Ok cd, st2).
Proof.
  intros (i & dl & d & Hi & Hp & Hd & Hself & Hnd & Hn) Hfresh Hm Hmiss Ho1 Ho2 Ho3.
  unfold vtfs_create. rewrite Hm.
  unfold_ops. rewrite Hi, Hp, Hd, (find_entry_miss _ _ _ _ Hn Hmiss).
  rewrite Ho1, Ho2, Ho3. simpl negb. cbv iota.
  apply get_dir_Some in Hd. pose proof (fresh_lt _ _ _ Hfresh Hd) as Hlt.
  apply get_inode_Some in Hi. pose proof (fresh_lt _ _ _ Hfresh Hi) as Hlti.
  assert (p <> dl) as Hpd by congruence.
  assert (dl <> p) as Hdp by congruence.
  assert (forall e, e ∈ children d -> (e < next_loc st)%positive /\ e <> dl) as Hch.
  { intros e He. split; [by eapply children_below|].
    destruct (names_of_live _ _ _ _ Hn He) as [f Hf]. congruence. }
  assert (next_loc st ∉ children d) as Hnew.
  { intros He. apply Hch in He. lia. }
  unfold get_inode, get_dir. simpl.
  heap_lookups_all. rewrite Hd. simpl.
  do 3 eexists. split; [reflexivity|].
  assert (dir_at_after : forall st2 : state,
    heap st2 !! p = Some (OInode i) ->
    heap st2 !! dl = Some (ODir (mk_dir (children d) (self d))) ->
    (forall e, e ∈ children d -> get_file st2 e = get_file st e) ->
    dir_at st2 p ns).
  { intros st2 H1 H2 H3. exists i, dl, (mk_dir (children d) (self d)).
    split; [by apply get_inode_Some|]. split; [done|].
    split; [by apply get_dir_Some|]. split; [done|]. split; [done|].
    simpl. by rewrite (names_of_frame st). }
  unfold vtfs_unlink, list_del. unfold_ops.
  unfold get_inode, get_dir. simpl. heap_lookups_all. rewrite Hi, Hp. simpl.
  heap_lookups_all. unfold get_file at 1. simpl. heap_lookups_all.
  rewrite String.eqb_refl. simpl. heap_lookups_all.
  split; [reflexivity|].
  split.
  { apply dir_at_after; simpl.
    - heap_lookups_all. by rewrite Hi.
    - heap_lookups_all.
      rewrite filter_cons_False by (intros H; by apply H).
      by rewrite filter_ne_id.
    - intros e He. destruct (Hch e He). unfold get_file. simpl.
      assert (e <> next_loc st) by lia. heap_lookups_all.
      apply get_file_unlink_node. }
  split; [unfold get_inode; simpl; heap_lookups_all; done|].
  apply lookup_absent with ns; [|done].
  apply dir_at_after; simpl.
  - heap_lookups_all. by rewrite Hi.
  - heap_lookups_all.
    rewrite filter_cons_False by (intros H; by apply H).
    by rewrite filter_ne_id.
  - intros e He. destruct (Hch e He). unfold get_file. simpl.
    assert (e <> next_loc st) by lia. heap_lookups_all.
    apply get_file_unlink_node.
Qed.

Lemma vtfs_create_unlink_roundtrip_witness :
  exists de st1 st2,
    vtfs_create all_ok Run.root (Run.neg "g") Run.reg Run.st_f = (Ok de, st1) /\
    vtfs_unlink (Some Run.root) (Some de) st1 = (Ok tt, st2) /\
    dir_at st2 Run.root ["f"%string] /\
    (i_nlink <$> (d_inode de ≫= get_inode st2)) = Some 0 /\
    vtfs_lookup Run.root (Run.neg "g") st2 = (Ok (Run.neg "g"), st2).
Proof.
  apply (vtfs_create_unlink_roundtrip all_ok Run.st_f Run.root ["f"%string]
           (Run.neg "g") Run.reg st_f_dir st_f_fresh);
    try reflexivity.
  apply (bool_decide_unpack _). vm_compute. exact I.
Defined.


(** X20. [vtfs_rmdir] of a directory that has an entry returns [ENOTEMPTY]
    and changes nothing. *)
Theorem vtfs_rmdir_nonempty st p nsp til x ns cd :
  dir_at st p nsp -> dir_at st til (x :: ns) -> d_inode cd = Some til ->
  vtfs_rmdir (Some p) (Some cd) st = (Error ENOTEMPTY, st).
Proof.
  intros (i & dl & d & Hi & Hp & _) (ti & tdl & td & Hti & Htp & Htd & [tf Hself] & _ & Hn) Hcd.
  unfold vtfs_rmdir. unfold_ops. rewrite Hi, Hp, Hcd, Hti, Htp, Htd, Hself.
  destruct (children td); [done|reflexivity].
Qed.

Lemma vtfs_rmdir_nonempty_witness :
  vtfs_rmdir (Some Run.root) (Some (Run.pos "d" Run.d_inode)) Run.st_d_x
  = (Error ENOTEMPTY, Run.st_d_x).
Proof.
  apply (vtfs_rmdir_nonempty Run.st_d_x Run.root ["d"%string] Run.d_inode
           "x"%string [] (Run.pos "d" Run.d_inode) st_d_x_root st_d_x_dir).
  reflexivity.
Defined.


(** X19. Making a directory and removing it again succeeds and leaves the
    parent with the names it had, in the same order, also when the parent
    already had an entry of that name; the directory's inode is left with
    link count 0. *)
Theorem vtfs_mkdir_rmdir_roundtrip o st p ns cd md :
  dir_at st p ns -> alloc_fresh st ->
  file_ok o = true -> name_ok o = true -> dir_ok o = true -> inode_ok o = true ->
  exists de st1 st2,
    vtfs_mkdir o (Some p) (Some cd) md st = (Ok de, st1) /\
    vtfs_rmdir (Some p) (Some de) st1 = (Ok tt, st2) /\
    dir_at st2 p ns /\
    (i_nlink <$> (d_inode de ≫= get_inode st2)) = Some 0.
Proof.
  intros (i & dl & d & Hi & Hp & Hd & Hself & Hnd & Hn) Hfresh Ho1 Ho2 Ho3 Ho4.
  unfold vtfs_mkdir. unfold_ops. rewrite Hi, Hp, Ho1, Ho2, Ho3, Ho4.
  simpl negb. cbv iota.
  apply get_dir_Some in Hd. pose proof (fresh_lt _ _ _ Hfresh Hd) as Hlt.
  apply get_inode_Some in Hi. pose proof (fresh_lt _ _ _ Hfresh Hi) as Hlti.
  assert (p <> dl) as Hpd by congruence.
  assert (dl <> p) as Hdp by congruence.
  assert (forall e, e ∈ children d -> (e < next_loc st)%positive /\ e <> dl) as Hch.
  { intros e He. split; [by eapply children_below|].
    destruct (names_of_live _ _ _ _ Hn He) as [f Hf]. congruence. }
  assert (next_loc st ∉ children d) as Hnew.
  { intros He. apply Hch in He. lia. }
  unfold get_inode, get_dir. simpl.
  heap_lookups_all. rewrite Hd. simpl.
  do 3 eexists. split; [reflexivity|].
  unfold vtfs_rmdir, list_del. unfold_ops.
  unfold get_inode, get_dir, get_file. simpl. heap_lookups_all. rewrite Hi, Hp. simpl.
  heap_lookups_all.
  split; [reflexivity|].
  split.
  { exists i, dl, (mk_dir (children d) (self d)).
    unfold get_inode, get_dir. simpl. heap_lookups_all. rewrite Hi. simpl.
    split; [done|]. split; [done|].
    split.
    { rewrite filter_app, filter_ne_id by done.
      rewrite filter_cons_False by (intros H; by apply H).
      rewrite filter_nil. by rewrite app_nil_r. }
    split; [done|]. split; [done|]. simpl.
    rewrite (names_of_frame st); [done|].
    intros e He. destruct (Hch e He). unfold get_file. simpl.
    assert (e <> next_loc st) by lia. heap_lookups_all.
    apply get_file_unlink_node. }
  unfold get_inode; simpl; heap_lookups_all; done.
Qed.

Lemma vtfs_mkdir_rmdir_roundtrip_witness :
  exists de st1 st2,
    vtfs_mkdir all_ok (Some Run.root) (Some (Run.neg "f")) 493 Run.st_f
    = (Ok de, st1) /\
    vtfs_rmdir (Some Run.root) (Some de) st1 = (Ok tt, st2) /\
    dir_at st2 Run.root ["f"%string] /\
    (i_nlink <$> (d_inode de ≫= get_inode st2)) = Some 0.
Proof.
  apply (vtfs_mkdir_rmdir_roundtrip all_ok Run.st_f Run.root ["f"%string]
           (Run.neg "f") 493 st_f_dir st_f_fresh);
    reflexivity.
Defined.


Lemma names_of_listing st l ns :
  names_of st l = Some ns ->
  exists ents, listing st l = Some ents /\ map de_name ents = ns.
Proof.
  revert ns. induction l as [|e l IH]; intros ns H; simpl in *.
  - injection H as <-. by exists [].
  - destruct (get_file st e) as [f|]; [|done].
    unfold dirent_of. destruct (name f) as [n|]; [|done].
    destruct (names_of st l) as [ns'|]; [|done].
    injection H as <-.
    destruct (IH ns' eq_refl) as (ents & -> & Hm).
    eexists. split; [reflexivity|]. simpl. by rewrite Hm.
Qed.

Lemma triple_eq {A B C} (a a' : A) (b b' : B) (c c' : C) :
  a = a' -> b = b' -> c = c' -> (a, b, c) = (a', b', c').
Proof. by intros -> -> ->. Qed.

Lemma iterate_loop_cap st offset l :
  forall index cap pos ents,
    listing st l = Some ents ->
    0 <= index -> index + Z.of_nat (length l) < 2 ^ 64 ->
    0 <= pos ->
    pos + Z.of_nat (length (drop (Z.to_nat (offset - index)) ents)) < 2 ^ 63 ->
    iterate_loop st offset index cap pos l
    = (if decide (length (drop (Z.to_nat (offset - index)) ents) <= cap)%nat
       then Ok tt else Error ENOMEM,
       take cap (drop (Z.to_nat (offset - index)) ents),
       pos + Z.of_nat (Nat.min cap
                         (length (drop (Z.to_nat (offset - index)) ents)))).
Proof.
  induction l as [|e l IH]; intros index cap pos ents Hl Hi Hib Hp Hpb.
  - injection Hl as <-. rewrite drop_nil, take_nil.
    change (length (@nil dirent)) with 0%nat.
    destruct (decide (0 <= cap)%nat); [|lia].
    rewrite Nat.min_0_r. simpl. f_equal. lia.
  - simpl in Hl.
    destruct (get_file st e) as [entry|] eqn:Ee; [|done].
    unfold dirent_of in Hl.
    destruct (name entry) as [n|] eqn:En; [|done].
    destruct (listing st l) as [ents'|] eqn:El; [|done].
    injection Hl as <-.
    simpl length in *. simpl iterate_loop.
    rewrite (wrap64_small (index + 1)) by lia.
    destruct (Z.ltb_spec index offset) as [Hlt|Hge].
    + replace (Z.to_nat (offset - index))
        with (S (Z.to_nat (offset - (index + 1)))) in * by lia.
      simpl in Hpb.
      rewrite (IH (index + 1) cap pos ents') by (try done; lia).
      reflexivity.
    + rewrite Ee, En.
      replace (Z.to_nat (offset - index)) with 0%nat in * by lia.
      rewrite drop_0 in *. rewrite length_cons in Hpb. destruct cap as [|cap].
      * destruct (decide (length (_ :: ents') <= 0)%nat) as [Hc|Hc];
          [simpl in Hc; lia|].
        apply triple_eq; [reflexivity|reflexivity|lia].
      * rewrite (sint64_small (pos + 1)) by lia.
        assert (Z.to_nat (offset - (index + 1)) = 0%nat) as E0 by lia.
        rewrite (IH (index + 1) cap (pos + 1) ents')
          by (try done; rewrite ?E0, ?drop_0; lia).
        rewrite E0, drop_0.
        destruct (decide (length ents' <= cap)%nat);
          destruct (decide (length (_ :: ents') <= S cap)%nat) as [Hc|Hc];
          simpl in Hc; try lia;
          (apply triple_eq; [reflexivity|reflexivity|rewrite length_cons; lia]).
Qed.

Lemma vtfs_iterate_cap st p i dl d ents cap pos :
  get_inode st p = Some i -> i_private i = Some dl -> get_dir st dl = Some d ->
  listing st (children d) = Some ents ->
  0 <= pos -> Z.of_nat (length ents) < 2 ^ 63 ->
  pos + Z.of_nat (length (drop (Z.to_nat pos) ents)) < 2 ^ 63 ->
  vtfs_iterate cap p pos st
  = (if decide (length (drop (Z.to_nat pos) ents) <= cap)%nat
     then Ok tt else Error ENOMEM,
     take cap (drop (Z.to_nat pos) ents),
     pos + Z.of_nat (Nat.min cap (length (drop (Z.to_nat pos) ents)))).
Proof.
  intros Hi Hp Hd Hl Hp0 Hp1 Hp2.
  assert (length (children d) = length ents) as Hlen.
  { symmetry. by apply (listing_length st). }
  unfold vtfs_iterate. rewrite Hi, Hp, Hd.
  rewrite wrap64_small by lia.
  rewrite (iterate_loop_cap st pos _ 0 cap pos ents Hl)
    by (rewrite ?Z.sub_0_r; lia).
  rewrite Z.sub_0_r. reflexivity.
Qed.

(** X22. Enumeration with room for all remaining entries returns 0, emits
    the names from position [pos] on in list order, and advances the position
    by the number emitted; from a position at or past the end it emits
    nothing. *)
Theorem vtfs_iterate_lists_names st p ns cap pos :
  dir_at st p ns -> 0 <= pos -> pos + Z.of_nat (length ns) < 2 ^ 63 ->
  (length (drop (Z.to_nat pos) ns) <= cap)%nat ->
  exists ents,
    vtfs_iterate cap p pos st
    = (Ok tt, ents, pos + Z.of_nat (length ents)) /\
    map de_name ents = drop (Z.to_nat pos) ns.
Proof.
  intros (i & dl & d & Hi & Hp & Hd & _ & _ & Hn) Hp0 Hp1 Hcap.
  destruct (names_of_listing _ _ _ Hn) as (ents & Hls & Hm).
  assert (length ents = length ns) as Hlen by by rewrite <- Hm, length_map.
  rewrite (vtfs_iterate_cap st p i dl d ents cap pos)
    by (try done; rewrite ?length_drop; lia).
  assert (length (drop (Z.to_nat pos) ents) = length (drop (Z.to_nat pos) ns)) as Hl.
  { rewrite <- Hm, !length_drop, length_map. done. }
  exists (drop (Z.to_nat pos) ents).
  rewrite decide_True by lia. rewrite take_ge by lia.
  split; [do 2 f_equal; lia|].
  by rewrite <- Hm, <- skipn_map.
Qed.

Lemma vtfs_iterate_lists_names_witness :
  exists ents,
    vtfs_iterate 8 Run.root 1 Run.st_a_b_c
    = (Ok tt, ents, 1 + Z.of_nat (length ents)) /\
    map de_name ents = ["a"; "c"]%string.
Proof.
  apply (vtfs_iterate_lists_names Run.st_a_b_c Run.root ["b"; "a"; "c"]%string
           8 1 st_a_b_c_dir); [lia | simpl; lia | simpl; lia].
Defined.


(** X23. When [dir_emit] accepts only [cap] entries and more remain,
    enumeration emits the first [cap] of them, advances the position by
    [cap], and returns [ENOMEM]. *)
Theorem vtfs_iterate_full_buffer st p ns cap pos :
  dir_at st p ns -> 0 <= pos -> pos + Z.of_nat (length ns) < 2 ^ 63 ->
  (cap < length (drop (Z.to_nat pos) ns))%nat ->
  exists ents,
    vtfs_iterate cap p pos st = (Error ENOMEM, ents, pos + Z.of_nat cap) /\
    map de_name ents = take cap (drop (Z.to_nat pos) ns).
Proof.
  intros (i & dl & d & Hi & Hp & Hd & _ & _ & Hn) Hp0 Hp1 Hcap.
  destruct (names_of_listing _ _ _ Hn) as (ents & Hls & Hm).
  assert (length ents = length ns) as Hlen by by rewrite <- Hm, length_map.
  rewrite (vtfs_iterate_cap st p i dl d ents cap pos)
    by (try done; rewrite ?length_drop; lia).
  assert (length (drop (Z.to_nat pos) ents) = length (drop (Z.to_nat pos) ns)) as Hl.
  { rewrite <- Hm, !length_drop, length_map. done. }
  exists (take cap (drop (Z.to_nat pos) ents)).
  rewrite decide_False by lia.
  split; [do 2 f_equal; lia|].
  by rewrite <- Hm, <- firstn_map, <- skipn_map.
Qed.

Lemma vtfs_iterate_full_buffer_witness :
  exists ents,
    vtfs_iterate 2 Run.root 0 Run.st_a_b_c = (Error ENOMEM, ents, 0 + 2) /\
    map de_name ents = ["b"; "a"]%string.
Proof.
  apply (vtfs_iterate_full_buffer Run.st_a_b_c Run.root ["b"; "a"; "c"]%string
           2 0 st_a_b_c_dir); [lia | simpl; lia | simpl; lia].
Defined.


(** X24. A listing cut short can be resumed: an enumeration with any
    capacity followed by one from the position it left, with room for the
    rest, emits together exactly the names from the first position on. *)
Theorem vtfs_iterate_resume st p ns cap1 cap2 pos :
  dir_at st p ns -> 0 <= pos -> pos + Z.of_nat (length ns) < 2 ^ 63 ->
  (length ns <= cap2)%nat ->
  exists r1 e1 p1 e2 p2,
    vtfs_iterate cap1 p pos st = (r1, e1, p1) /\
    vtfs_iterate cap2 p p1 st = (Ok tt, e2, p2) /\
    map de_name (e1 ++ e2) = drop (Z.to_nat pos) ns /\
    p2 = pos + Z.of_nat (length (drop (Z.to_nat pos) ns)).
Proof.
  intros (i & dl & d & Hi & Hp & Hd & _ & _ & Hn) Hp0 Hp1 Hcap.
  destruct (names_of_listing _ _ _ Hn) as (ents & Hls & Hm).
  assert (length ents = length ns) as Hlen by by rewrite <- Hm, length_map.
  set (rest := drop (Z.to_nat pos) ents).
  assert (length rest = length (drop (Z.to_nat pos) ns)) as Hl.
  { subst rest. rewrite !length_drop. lia. }
  assert (length rest <= length ns)%nat as Hrl by (rewrite Hl, length_drop; lia).
  set (p1 := pos + Z.of_nat (Nat.min cap1 (length rest))).
  assert (length (drop (Z.to_nat p1) ents)
          = (length rest - Nat.min cap1 (length rest))%nat) as Hl2.
  { subst p1 rest. rewrite !length_drop. lia. }
  pose proof (vtfs_iterate_cap st p i dl d ents cap1 pos Hi Hp Hd Hls Hp0
                ltac:(lia) ltac:(fold rest; lia)) as H1.
  pose proof (vtfs_iterate_cap st p i dl d ents cap2 p1 Hi Hp Hd Hls
                ltac:(lia) ltac:(lia)
                ltac:(rewrite Hl2; subst p1; lia)) as H2.
  fold rest in H1. fold p1 in H1.
  rewrite decide_True in H2 by (rewrite Hl2; lia).
  rewrite take_ge in H2 by (rewrite Hl2; lia).
  do 5 eexists. split; [exact H1|]. split; [exact H2|].
  assert (drop (Z.to_nat p1) ents = drop (Nat.min cap1 (length rest)) rest) as Hd2.
  { subst rest p1. rewrite drop_drop. f_equal. lia. }
  rewrite Hd2. split.
  - destruct (Nat.le_ge_cases cap1 (length rest)).
    + rewrite Nat.min_l by lia. rewrite take_drop. subst rest.
      by rewrite <- Hm, <- skipn_map.
    + rewrite Nat.min_r by lia. rewrite drop_all, app_nil_r, take_ge by lia.
      subst rest. by rewrite <- Hm, <- skipn_map.
  - rewrite <- Hd2, Hl2. subst p1. rewrite <- Hl. lia.
Qed.

Lemma vtfs_iterate_resume_witness :
  exists r1 e1 p1 e2 p2,
    vtfs_iterate 2 Run.root 0 Run.st_a_b_c = (r1, e1, p1) /\
    vtfs_iterate 8 Run.root p1 Run.st_a_b_c = (Ok tt, e2, p2) /\
    map de_name (e1 ++ e2) = ["b"; "a"; "c"]%string /\
    p2 = 0 + 3.
Proof.
  apply (vtfs_iterate_resume Run.st_a_b_c Run.root ["b"; "a"; "c"]%string
           2 8 0 st_a_b_c_dir); [lia | simpl; lia | simpl; lia].
Defined.


Lemma iterate_loop_errors st offset l :
  forall index cap pos e out pos',
    iterate_loop st offset index cap pos l = (Error e, out, pos') -> e = ENOMEM.
Proof.
  induction l as [|x l IH]; intros index cap pos e out pos' H; simpl in H.
  - done.
  - destruct (index <? offset); [by eapply IH|].
    destruct (get_file st x) as [f|]; [|done].
    destruct (name f); [|done].
    destruct cap as [|cap]; [by injection H as <-|].
    destruct (iterate_loop st offset _ cap _ l) as [[r o] p] eqn:E.
    injection H as -> _ _. by eapply IH.
Qed.

Lemma find_entry_not_error st nm l e : find_entry st nm l <> Error e.
Proof.
  induction l as [|x l IH]; simpl; [done|].
  destruct (get_file st x) as [f|]; [|done].
  destruct (name f) as [n|]; [|done].
  by destruct (String.eqb n nm).
Qed.

Ltac error_code :=
  crunch;
  try (exfalso; eapply find_entry_not_error; eassumption);
  repeat constructor.

(** X26. The error codes each operation can return: [vtfs_create] and
    [vtfs_link] only [EPERM], [EEXIST], [ENOMEM]; [vtfs_mkdir] only [EINVAL],
    [EFAULT], [ENOMEM] (never [EEXIST]); [vtfs_unlink] only [EINVAL],
    [EFAULT], [ENOENT] and [vtfs_rmdir] only [EINVAL], [EFAULT], [ENOTEMPTY]
    (neither ever reports a wrong kind of target); [vtfs_iterate] only
    [ENOMEM]; [vtfs_read] only [EFAULT]; [vtfs_write] only [EINVAL],
    [ENOMEM], [EFAULT]. *)
Theorem vtfs_error_codes :
  (forall o p cd md st e st',
      vtfs_create o p cd md st = (Error e, st') -> e ∈ [EPERM; EEXIST; ENOMEM]) /\
  (forall o od p nd st e st',
      vtfs_link o od p nd st = (Error e, st') -> e ∈ [EPERM; EEXIST; ENOMEM]) /\
  (forall o p cd md st e st',
      vtfs_mkdir o p cd md st = (Error e, st') -> e ∈ [EINVAL; EFAULT; ENOMEM]) /\
  (forall p cd st e st',
      vtfs_unlink p cd st = (Error e, st') -> e ∈ [EINVAL; EFAULT; ENOENT]) /\
  (forall p cd st e st',
      vtfs_rmdir p cd st = (Error e, st') -> e ∈ [EINVAL; EFAULT; ENOTEMPTY]) /\
  (forall cap fi pos st e out pos',
      vtfs_iterate cap fi pos st = (Error e, out, pos') -> e = ENOMEM) /\
  (forall uok fi len ppos st e ppos' st',
      vtfs_read uok fi len ppos st = (Error e, ppos', st') -> e = EFAULT) /\
  (forall kc ubuf fi len ppos st e ppos' st',
      vtfs_write kc ubuf fi len ppos st = (Error e, ppos', st') ->
      e ∈ [EINVAL; ENOMEM; EFAULT]).
Proof.
  repeat split.
  - intros o p cd md st e st' H. revert H. unfold vtfs_create. unfold_ops.
    error_code.
  - intros o od p nd st e st' H. revert H. unfold vtfs_link. unfold_ops.
    error_code.
  - intros o p cd md st e st' H. revert H. unfold vtfs_mkdir. unfold_ops.
    error_code.
  - intros p cd st e st' H. revert H. unfold vtfs_unlink, list_del. unfold_ops.
    error_code.
  - intros p cd st e st' H. revert H. unfold vtfs_rmdir, list_del. unfold_ops.
    error_code.
  - intros cap fi pos st e out pos' H. unfold vtfs_iterate in H.
    destruct (get_inode st fi) as [i|]; [|done].
    destruct (i_private i); [|done].
    destruct (get_dir st _); [|done].
    by eapply iterate_loop_errors.
  - intros uok fi len ppos st e ppos' st' H. revert H. unfold vtfs_read.
    crunch.
  - intros kc ubuf fi len ppos st e ppos' st' H. revert H.
    unfold vtfs_write, krealloc, memset0, copy_from_user. unfold_ops.
    error_code.
Qed.

Lemma vtfs_error_codes_witness : EEXIST ∈ [EPERM; EEXIST; ENOMEM].
Proof.
  apply (proj1 vtfs_error_codes all_ok Run.root (Run.neg "f") Run.reg
           Run.st_f EEXIST Run.st_f).
  vm_compute. reflexivity.
Defined.


